(** * irs-viz-demo: the data path of [viz_demo/app.py]

    The dashboard loads a scouting table into a pandas DataFrame, keeps the
    cube tasks and totals them per team, match and phase
    ([get_cube_measures]), and on every change of the radio buttons filters or
    re-aggregates that summary before handing it to the charting library
    ([_build_cube_histogram]).

    The development embeds the pandas operations the two functions call
    (attribute access to a column, [.str.startswith], a comparison with a
    scalar, [.loc] with a boolean mask, [groupby(..., as_index=False).agg] with
    ["sum"]) on frames of rows of cells, and the Python they are written in:
    exceptions as a result type, [str.lower], list membership, and a store of
    objects, frames and figures, that are passed by reference and, the
    figures, updated in place.

    Scope of the model.  A cell is a [str], an int64 or missing (NaN/None);
    text is ASCII.  A group-by drops the rows with a missing key, as
    [dropna=True], its default, says.  An aggregated column is summed as
    int64 (with numpy's wrap-around) when all its cells are integers and
    concatenated when all are text; other columns (floats, mixed objects) and
    frames that are not rectangular are outside the model, and the model says
    so ([NotModelled]) instead of guessing.  Row labels (the index) are not
    represented.

    The second part covers the rest of the module: the statements that run
    when it is loaded, the callback [update_cube_hist] served over a sequence
    of requests, and [_build_measures_table].  The page layout and the web
    server behind [get_layout] are left to Dash. *)

From Stdlib Require Import List ZArith Lia Bool Ascii String Permutation Sorted.
Import ListNotations.
Local Open Scope string_scope.
Local Open Scope list_scope.
Local Open Scope Z_scope.

(** ** Python: exceptions, values, strings *)

Module Py.

(** The last constructor is not an exception of the program: it marks an
    input on which this model does not say what the program does. *)
Inductive exn : Type :=
| AttributeError (what : string)
| KeyError (key : string)
| TypeError (what : string)
| ValueError (what : string)
| FileNotFoundError (what : string)
| IndexingError
| NotModelled (what : string).

Inductive result (A : Type) : Type :=
| Ok (a : A)
| Raise (e : exn).
Arguments Ok {A} a.
Arguments Raise {A} e.

Definition bind {A B} (m : result A) (k : A -> result B) : result B :=
  match m with
  | Ok a => k a
  | Raise e => Raise e
  end.

Definition of_option {A} (o : option A) (e : exn) : result A :=
  match o with
  | Some a => Ok a
  | None => Raise e
  end.

Fixpoint mapM {A B} (f : A -> result B) (l : list A) : result (list B) :=
  match l with
  | [] => Ok []
  | x :: xs =>
      bind (f x) (fun y => bind (mapM f xs) (fun ys => Ok (y :: ys)))
  end.

(** The values the radio control can hand to the callback: its [value]
    property travels as JSON, so it is a string, a boolean or [None]
    (numbers are left out). *)
Inductive value : Type :=
| PyNone
| PyBool (b : bool)
| PyStr (s : string).

(** [c.lower()] on one ASCII character. *)
Definition lower_char (c : ascii) : ascii :=
  let n := N_of_ascii c in
  if ((65 <=? n) && (n <=? 90))%N then ascii_of_N (n + 32) else c.

(** [s.lower()]. *)
Fixpoint str_lower (s : string) : string :=
  match s with
  | EmptyString => EmptyString
  | String c rest => String (lower_char c) (str_lower rest)
  end.

(** [s.startswith(p)]. *)
Definition str_startswith (s p : string) : bool := String.prefix p s.

(** [v.lower()] for an arbitrary value: only [str] has the method. *)
Definition lower (v : value) : result string :=
  match v with
  | PyStr s => Ok (str_lower s)
  | PyNone => Raise (AttributeError "'NoneType' object has no attribute 'lower'")
  | PyBool _ => Raise (AttributeError "'bool' object has no attribute 'lower'")
  end.

(** [isinstance(v, str)]. *)
Definition is_str (v : value) : bool :=
  match v with
  | PyStr _ => true
  | _ => false
  end.

(** [x in l] for a list of strings. *)
Definition str_in (x : string) (l : list string) : bool :=
  existsb (String.eqb x) l.

(** [f"{v}"]. *)
Definition format (v : value) : string :=
  match v with
  | PyNone => "None"
  | PyBool true => "True"
  | PyBool false => "False"
  | PyStr s => s
  end.

End Py.

Import Py.

Notation "x <- m ;; k" := (Py.bind m (fun x => k))
  (at level 61, m at next level, right associativity).

(** ** int64 arithmetic (numpy) *)

Module Int64.

Definition min_int : Z := - 2 ^ 63.
Definition max_int : Z := 2 ^ 63 - 1.

Definition in_range (z : Z) : bool := (min_int <=? z) && (z <=? max_int).

(** Two's complement wrap-around of a mathematical integer. *)
Definition wrap (z : Z) : Z := (z + 2 ^ 63) mod 2 ^ 64 - 2 ^ 63.

Definition add (a b : Z) : Z := wrap (a + b).

(** [np.sum] over an int64 array. *)
Definition sum (l : list Z) : Z := fold_left add l 0.

End Int64.

(** The mathematical sum of a list of integers. *)
Definition Zsum (l : list Z) : Z := fold_right Z.add 0 l.

(** ** pandas: frames, masks, group-by *)

Module Pandas.

(** One cell of a frame: an element of an object column of [str], of an
    [int64] column, or a missing value (NaN, None). *)
Inductive cell : Type :=
| Str (s : string)
| Int (z : Z)
| NaN.

Definition is_missing (c : cell) : bool :=
  match c with
  | NaN => true
  | _ => false
  end.

Definition is_text (c : cell) : bool :=
  match c with
  | Str _ => true
  | _ => false
  end.

Definition is_number (c : cell) : bool :=
  match c with
  | Int _ => true
  | _ => false
  end.

(** The same cell. *)
Definition cell_eqb (a b : cell) : bool :=
  match a, b with
  | Str s, Str t => String.eqb s t
  | Int x, Int y => Z.eqb x y
  | NaN, NaN => true
  | _, _ => false
  end.

(** The order in which pandas sorts group keys: integers by value, strings
    by code point, in a mixed object column integers before strings, and a
    missing value after everything else. *)
Definition cell_compare (a b : cell) : comparison :=
  match a, b with
  | Int x, Int y => Z.compare x y
  | Str s, Str t => String.compare s t
  | Int _, Str _ => Lt
  | Str _, Int _ => Gt
  | NaN, NaN => Eq
  | NaN, _ => Gt
  | _, NaN => Lt
  end.

Definition row : Type := list cell.

(** A frame, row by row, under its column labels. *)
Record DataFrame : Type := mkDataFrame {
  columns : list string;
  data : list row
}.

(** [Index.get_loc]: position of a label among the columns. *)
Fixpoint get_loc (name : string) (cols : list string) : option nat :=
  match cols with
  | [] => None
  | c :: rest =>
      if String.eqb c name then Some 0%nat
      else option_map S (get_loc name rest)
  end.

(** The cells of one column, top to bottom. *)
Definition take (i : nat) (rows : list row) : result (list cell) :=
  mapM (fun r => of_option (nth_error r i) (NotModelled "row shorter than the columns")) rows.

(** [df.name]: attribute access to a column. *)
Definition getattr (df : DataFrame) (name : string) : result (list cell) :=
  i <- of_option (get_loc name (columns df))
         (AttributeError ("'DataFrame' object has no attribute '" ++ name ++ "'")) ;;
  take i (data df).

(** [df[name]]. *)
Definition getitem (df : DataFrame) (name : string) : result (list cell) :=
  i <- of_option (get_loc name (columns df)) (KeyError name) ;;
  take i (data df).

(** A boolean Series; [None] where pandas has NaN. *)
Definition mask : Type := list (option bool).

(** [series.str.startswith(p)]: the accessor exists on object columns (here:
    a column that holds some text, or no number); an element that is not
    text gives NaN. *)
Definition str_startswith (series : list cell) (p : string) : result mask :=
  if existsb is_text series || negb (existsb is_number series)
  then Ok (map (fun c =>
                  match c with
                  | Str s => Some (Py.str_startswith s p)
                  | _ => None
                  end) series)
  else Raise (AttributeError "Can only use .str accessor with string values!").

(** [series == scalar], element by element; a missing value equals
    nothing. *)
Definition eq_scalar (series : list cell) (v : cell) : mask :=
  map (fun c => Some (negb (is_missing c) && cell_eqb c v)) series.

(** The rows a boolean mask selects. *)
Fixpoint select (keep : list bool) (rows : list row) : list row :=
  match keep, rows with
  | b :: keep', r :: rows' =>
      if b then r :: select keep' rows' else select keep' rows'
  | _, _ => []
  end.

(** The booleans of a mask without NaN. *)
Fixpoint booleans (m : mask) : option (list bool) :=
  match m with
  | [] => Some []
  | Some b :: rest => option_map (cons b) (booleans rest)
  | None :: _ => None
  end.

(** [df.loc[mask, :]]: a new frame with the selected rows and every
    column. *)
Definition loc (df : DataFrame) (m : mask) : result DataFrame :=
  match booleans m with
  | None =>
      Raise (ValueError "Cannot mask with non-boolean array containing NA / NaN values")
  | Some keep =>
      if Nat.eqb (List.length keep) (List.length (data df))
      then Ok {| columns := columns df; data := select keep (data df) |}
      else Raise IndexingError
  end.

(** [series.sum()] of an int64 column. *)
Definition int64_values (series : list cell) : result (list Z) :=
  mapM (fun c =>
          match c with
          | Int z => Ok z
          | _ => Raise (NotModelled "sum of a column that is not int64")
          end) series.

Definition sum (series : list cell) : result Z :=
  zs <- int64_values series ;;
  Ok (Int64.sum zs).

(** *** Group-by *)

Definition key : Type := list cell.

Fixpoint key_eqb (a b : key) : bool :=
  match a, b with
  | [], [] => true
  | x :: a', y :: b' => cell_eqb x y && key_eqb a' b'
  | _, _ => false
  end.

Fixpoint key_compare (a b : key) : comparison :=
  match a, b with
  | [], [] => Eq
  | [], _ :: _ => Lt
  | _ :: _, [] => Gt
  | x :: a', y :: b' =>
      match cell_compare x y with
      | Eq => key_compare a' b'
      | c => c
      end
  end.

(** No part of the key is missing. *)
Definition complete (k : key) : bool := negb (existsb is_missing k).

(** [dropna=True], the default of [groupby]: a row with a missing key
    belongs to no group. *)
Definition dropna {V} (pairs : list (key * V)) : list (key * V) :=
  filter (fun p => complete (fst p)) pairs.

(** Adds one value to the running total of its group; a key seen for the
    first time opens a group behind the ones already there. *)
Fixpoint add_to_group (k : key) (z : Z) (groups : list (key * Z)) : list (key * Z) :=
  match groups with
  | [] => [(k, Int64.add 0 z)]
  | (k', total) :: rest =>
      if key_eqb k k' then (k', Int64.add total z) :: rest
      else (k', total) :: add_to_group k z rest
  end.

(** The groups of a list of (key, value) pairs in order of first
    appearance, each with the int64 sum of its values. *)
Definition group_sums (pairs : list (key * Z)) : list (key * Z) :=
  fold_left (fun groups p => add_to_group (fst p) (snd p) groups) pairs [].

(** [sort=True], the default of [groupby]: groups come out in key order. *)
Fixpoint insert_group (g : key * Z) (groups : list (key * Z)) : list (key * Z) :=
  match groups with
  | [] => [g]
  | h :: rest =>
      match key_compare (fst g) (fst h) with
      | Gt => h :: insert_group g rest
      | _ => g :: h :: rest
      end
  end.

Definition sort_groups (groups : list (key * Z)) : list (key * Z) :=
  fold_right insert_group [] groups.

(** The same for a column of text, whose "sum" is the concatenation of the
    strings of the group, in row order. *)
Fixpoint concat_to_group (k : key) (s : string) (groups : list (key * string))
  : list (key * string) :=
  match groups with
  | [] => [(k, s)]
  | (k', total) :: rest =>
      if key_eqb k k' then (k', (total ++ s)%string) :: rest
      else (k', total) :: concat_to_group k s rest
  end.

Definition group_concats (pairs : list (key * string)) : list (key * string) :=
  fold_left (fun groups p => concat_to_group (fst p) (snd p) groups) pairs [].

Fixpoint insert_text_group (g : key * string) (groups : list (key * string))
  : list (key * string) :=
  match groups with
  | [] => [g]
  | h :: rest =>
      match key_compare (fst g) (fst h) with
      | Gt => h :: insert_text_group g rest
      | _ => g :: h :: rest
      end
  end.

Definition sort_text_groups (groups : list (key * string)) : list (key * string) :=
  fold_right insert_text_group [] groups.

(** The key and the value cell of one row. *)
Definition key_value (by_ : list nat) (val : nat) (r : row) : result (key * cell) :=
  k <- mapM (fun i => of_option (nth_error r i)
                        (NotModelled "row shorter than the columns")) by_ ;;
  v <- of_option (nth_error r val) (NotModelled "row shorter than the columns") ;;
  Ok (k, v).

(** The values of an int64 column, of a text column. *)
Fixpoint int64_pairs (pairs : list (key * cell)) : option (list (key * Z)) :=
  match pairs with
  | [] => Some []
  | (k, Int z) :: rest => option_map (cons (k, z)) (int64_pairs rest)
  | _ :: _ => None
  end.

Fixpoint text_pairs (pairs : list (key * cell)) : option (list (key * string)) :=
  match pairs with
  | [] => Some []
  | (k, Str s) :: rest => option_map (cons (k, s)) (text_pairs rest)
  | _ :: _ => None
  end.

Definition group_row (g : key * Z) : row := fst g ++ [Int (snd g)].

Definition text_group_row (g : key * string) : row := fst g ++ [Str (snd g)].

(** [df.groupby(by, as_index=False).agg({val: "sum"})]: one row per
    distinct key without a missing part, the key columns first and the
    summed column last.  [groupby] looks the key labels up, [agg] the
    aggregated one. *)
Definition groupby_agg_sum (df : DataFrame) (by_ : list string) (val : string)
  : result DataFrame :=
  is_ <- mapM (fun k => of_option (get_loc k (columns df)) (KeyError k)) by_ ;;
  v <- of_option (get_loc val (columns df))
         (KeyError ("Label(s) ['" ++ val ++ "'] do not exist")) ;;
  pairs <- mapM (key_value is_ v) (data df) ;;
  match int64_pairs pairs, text_pairs pairs with
  | Some ints, _ =>
      Ok {| columns := by_ ++ [val];
            data := map group_row (sort_groups (group_sums (dropna ints))) |}
  | None, Some texts =>
      Ok {| columns := by_ ++ [val];
            data := map text_group_row
                      (sort_text_groups (group_concats (dropna texts))) |}
  | None, None =>
      Raise (NotModelled "sum of a column that is neither int64 nor text")
  end.

End Pandas.

Import Pandas.

(** ** plotly express *)

Module Plotly.

(** What the histogram is drawn from and how it is labelled. *)
Record Figure : Type := mkFigure {
  x : list cell;
  title : string;
  xaxis_title : string;
  yaxis_title : string;
  marker_line : option (Z * string)
}.

(** [px.histogram(df, x=name, title=..., labels={name: label})]. *)
Definition histogram (df : DataFrame) (name : string) (title_ label : string)
  : result Figure :=
  match get_loc name (columns df) with
  | None =>
      Raise (ValueError "Value of 'x' is not the name of a column in 'data_frame'")
  | Some i =>
      xs <- take i (data df) ;;
      Ok {| x := xs; title := title_; xaxis_title := label;
            yaxis_title := "count"; marker_line := None |}
  end.

(** [fig.update_traces(marker_line_width=w, marker_line_color=c)]. *)
Definition update_traces (fig : Figure) (w : Z) (c : string) : Figure :=
  {| x := x fig; title := title fig; xaxis_title := xaxis_title fig;
     yaxis_title := yaxis_title fig; marker_line := Some (w, c) |}.

(** [fig.update_layout(yaxis_title=t)]. *)
Definition update_layout (fig : Figure) (t : string) : Figure :=
  {| x := x fig; title := title fig; xaxis_title := xaxis_title fig;
     yaxis_title := t; marker_line := marker_line fig |}.

End Plotly.

(** ** The store of objects

    Python passes frames and figures by reference.  A computation runs on a
    store of objects and leaves a store behind, also when it raises.  An
    object can be read, a new one allocated, and an existing one overwritten
    in place. *)

Module Store.

Definition ref : Type := nat.

Inductive object : Type :=
| Frame (df : DataFrame)
| Figure (fig : Plotly.Figure).

Definition store : Type := list object.

Definition M (A : Type) : Type := store -> result A * store.

Definition ret {A} (a : A) : M A := fun st => (Ok a, st).

Definition bind {A B} (m : M A) (k : A -> M B) : M B :=
  fun st =>
    match m st with
    | (Ok a, st') => k a st'
    | (Raise e, st') => (Raise e, st')
    end.

Definition lift {A} (r : result A) : M A := fun st => (r, st).

Definition lookup (st : store) (r : ref) : option object := nth_error st r.

(** Dereference, as a frame and as a figure. *)
Definition read_frame (r : ref) : M DataFrame :=
  fun st =>
    match lookup st r with
    | Some (Frame df) => (Ok df, st)
    | _ => (Raise (NotModelled "not a reference to a frame"), st)
    end.

Definition read_figure (r : ref) : M Plotly.Figure :=
  fun st =>
    match lookup st r with
    | Some (Figure fig) => (Ok fig, st)
    | _ => (Raise (NotModelled "not a reference to a figure"), st)
    end.

(** A new object, behind the ones already there. *)
Definition alloc (o : object) : M ref :=
  fun st => (Ok (List.length st), st ++ [o]).

(** The store with the object at [r] replaced. *)
Fixpoint replace (r : ref) (o : object) (st : store) : store :=
  match st, r with
  | [], _ => []
  | _ :: rest, O => o :: rest
  | x :: rest, S r' => x :: replace r' o rest
  end.

(** Update in place: whoever holds the reference sees the new object. *)
Definition write (r : ref) (o : object) : M unit :=
  fun st =>
    match lookup st r with
    | Some _ => (Ok tt, replace r o st)
    | None => (Raise (NotModelled "not a reference"), st)
    end.

(** What a returned reference refers to. *)
Definition deref (st : store) (res : result ref) : result (option object) :=
  match res with
  | Ok r => Ok (lookup st r)
  | Raise e => Raise e
  end.

(** The pandas calls of the application, on references: each one reads its
    receiver and, where pandas returns a frame, allocates it. *)
Definition getattr (r : ref) (name : string) : M (list cell) :=
  bind (read_frame r) (fun df => lift (Pandas.getattr df name)).

Definition loc (r : ref) (m : mask) : M ref :=
  bind (read_frame r) (fun df =>
  bind (lift (Pandas.loc df m)) (fun out => alloc (Frame out))).

Definition groupby_agg_sum (r : ref) (by_ : list string) (val : string) : M ref :=
  bind (read_frame r) (fun df =>
  bind (lift (Pandas.groupby_agg_sum df by_ val)) (fun out => alloc (Frame out))).

(** The plotly calls: [px.histogram] reads the frame and allocates a figure;
    [fig.update_traces] and [fig.update_layout] change the figure in place
    and return it. *)
Definition histogram (r : ref) (name title_ label : string) : M ref :=
  bind (read_frame r) (fun df =>
  bind (lift (Plotly.histogram df name title_ label)) (fun fig => alloc (Figure fig))).

Definition update_traces (r : ref) (w : Z) (c : string) : M ref :=
  bind (read_figure r) (fun fig =>
  bind (write r (Figure (Plotly.update_traces fig w c))) (fun _ => ret r)).

Definition update_layout (r : ref) (t : string) : M ref :=
  bind (read_figure r) (fun fig =>
  bind (write r (Figure (Plotly.update_layout fig t))) (fun _ => ret r)).

End Store.

Notation "x <~ m ;; k" := (Store.bind m (fun x => k))
  (at level 61, m at next level, right associativity).

(** ** The application: [viz_demo/app.py] *)

(** [get_cube_measures(measures)]: the cube tasks, totalled per team, match
    and phase. *)
Definition get_cube_measures (measures : DataFrame) : result DataFrame :=
  task <- getattr measures "task" ;;
  mask <- str_startswith task "cube" ;;
  cubes <- loc measures mask ;;
  groupby_agg_sum cubes ["team"; "match"; "phase"] "hit".

(** The first statement of [_build_cube_histogram], the one that
    "just filters the dataframe based on the phase argument": the value the
    local name [cube_measures] is rebound to. *)
Definition view_filter (cube_measures : DataFrame) (phase : value) : result DataFrame :=
  lowered <- Py.lower phase ;;
  if str_in lowered ["auto"; "tele"] then
    column <- getattr cube_measures "phase" ;;
    lowered' <- Py.lower phase ;;
    loc cube_measures (eq_scalar column (Str lowered'))
  else
    groupby_agg_sum cube_measures ["team"; "match"] "hit".

(** [_build_cube_histogram(cube_measures, phase)], on the store: the frame
    arrives by reference, the local name is rebound to a new object, and the
    figure, a new object too, is updated in place twice before it is
    returned. *)
Definition _build_cube_histogram (cube_measures : Store.ref) (phase : value)
  : Store.M Store.ref :=
  lowered <~ Store.lift (Py.lower phase) ;;
  cube_measures' <~
    (if str_in lowered ["auto"; "tele"] then
       column <~ Store.getattr cube_measures "phase" ;;
       lowered' <~ Store.lift (Py.lower phase) ;;
       Store.loc cube_measures (eq_scalar column (Str lowered'))
     else
       Store.groupby_agg_sum cube_measures ["team"; "match"] "hit") ;;
  let plot_title := ("Histogram of Cubes Placed Per Match: " ++ Py.format phase)%string in
  cube_hist <~ Store.histogram cube_measures' "hit" plot_title
                 "Cubes Placed by a Team in a Single Match" ;;
  _ <~ Store.update_traces cube_hist 1 "lightgrey" ;;
  _ <~ Store.update_layout cube_hist "Count" ;;
  Store.ret cube_hist.

(** ** The data model of the specification *)

(** Measurement record: one observed event. *)
Record Measurement : Type := mkMeasurement {
  m_team : cell;
  m_match : cell;
  m_phase : cell;
  m_task : string;
  m_hit : Z
}.

(** Summary record: one (team, match, phase) combination with its total. *)
Record Summary : Type := mkSummary {
  s_team : cell;
  s_match : cell;
  s_phase : cell;
  s_hit : Z
}.

(** A row of the "All" view: one (team, match) combination with its total. *)
Record Total : Type := mkTotal {
  t_team : cell;
  t_match : cell;
  t_hit : Z
}.

Definition is_some {A} (o : option A) : bool :=
  match o with
  | Some _ => true
  | None => false
  end.

Fixpoint traverse {A B} (f : A -> option B) (l : list A) : option (list B) :=
  match l with
  | [] => Some []
  | a :: rest =>
      match f a, traverse f rest with
      | Some b, Some bs => Some (b :: bs)
      | _, _ => None
      end
  end.

(** The cell of a row under a column label. *)
Definition field (cols : list string) (name : string) (r : row) : option cell :=
  match get_loc name cols with
  | Some i => nth_error r i
  | None => None
  end.

Fixpoint distinct (l : list string) : bool :=
  match l with
  | [] => true
  | a :: rest => negb (existsb (String.eqb a) rest) && distinct rest
  end.

(** A frame is well formed when its labels are distinct and every row has one
    cell per column. *)
Definition wf_frame (df : DataFrame) : bool :=
  distinct (columns df)
  && forallb (fun r => Nat.eqb (List.length r) (List.length (columns df))) (data df).

(** Reading a row of the raw table as a measurement record: [task] is text
    and [hit] an int64. *)
Definition measurement_of (cols : list string) (r : row) : option Measurement :=
  match field cols "team" r, field cols "match" r, field cols "phase" r,
        field cols "task" r, field cols "hit" r with
  | Some t, Some m, Some p, Some (Str k), Some (Int h) =>
      if Int64.in_range h then Some (mkMeasurement t m p k h) else None
  | _, _, _, _, _ => None
  end.

Definition measurements (T : DataFrame) : option (list Measurement) :=
  traverse (measurement_of (columns T)) (data T).

(** Modelled from the spec: the schema of [team-measures.feather], which the
    repository reads but does not describe.  A raw measurement table is a
    well-formed frame whose columns include [team], [match], [phase], [task]
    and [hit], with text in [task] and int64 counts in [hit]. *)
Definition raw_table (T : DataFrame) : bool :=
  wf_frame T
  && forallb (fun name => is_some (get_loc name (columns T)))
       ["team"; "match"; "phase"; "task"; "hit"]
  && is_some (measurements T).

Definition summary_columns : list string := ["team"; "match"; "phase"; "hit"].
Definition total_columns : list string := ["team"; "match"; "hit"].

Definition summary_row (s : Summary) : row :=
  [s_team s; s_match s; s_phase s; Int (s_hit s)].

Definition total_row (t : Total) : row :=
  [t_team t; t_match t; Int (t_hit t)].

Definition summary_of (r : row) : option Summary :=
  match r with
  | [t; m; p; Int h] =>
      if Int64.in_range h && complete [t; m; p]
      then Some (mkSummary t m p h) else None
  | _ => None
  end.

Definition summaries (tbl : DataFrame) : option (list Summary) :=
  traverse summary_of (data tbl).

(** A summary table has exactly the columns [team], [match], [phase], [hit],
    the last one int64, and no missing team, match or phase: the aggregator
    returns no other table. *)
Definition summary_table (tbl : DataFrame) : bool :=
  (if list_eq_dec string_dec (columns tbl) summary_columns then true else false)
  && is_some (summaries tbl).

Definition summary_frame (ss : list Summary) : DataFrame :=
  {| columns := summary_columns; data := map summary_row ss |}.

(** *** The transformations, in the specification's words *)

Definition cell_eq_dec (a b : cell) : {a = b} + {a <> b}.
Proof.
  decide equality; [apply string_dec | apply Z.eq_dec].
Defined.

Definition cell2_eq_dec (a b : cell * cell) : {a = b} + {a <> b}.
Proof.
  decide equality; apply cell_eq_dec.
Defined.

Definition cell3_eq_dec (a b : cell * cell * cell) : {a = b} + {a <> b}.
Proof.
  decide equality; [apply cell_eq_dec | apply cell2_eq_dec].
Defined.

Section SpecGroups.

Context {A K : Type}.
Variable K_eq_dec : forall a b : K, {a = b} + {a <> b}.
Variable key_of : A -> K.
Variable val_of : A -> Z.

(** The members of the group of [k]. *)
Definition group_of (k : K) (l : list A) : list A :=
  filter (fun a => if K_eq_dec (key_of a) k then true else false) l.

(** Group by [key_of]; within each group, sum [val_of] (an int64 total). *)
Definition spec_groups (l : list A) : list (K * Z) :=
  map (fun k => (k, Int64.wrap (Zsum (map val_of (group_of k l)))))
      (nodup K_eq_dec (map key_of l)).

End SpecGroups.

(** Keep only rows whose [task] starts with the category prefix. *)
Definition is_cube (m : Measurement) : bool := String.prefix "cube" (m_task m).

Definition cube_rows (ms : list Measurement) : list Measurement :=
  filter is_cube ms.

Definition team_match_phase (m : Measurement) : cell * cell * cell :=
  (m_team m, m_match m, m_phase m).

Definition team_match (s : Summary) : cell * cell :=
  (s_team s, s_match s).

(** Category aggregator: filter, group by (team, match, phase), sum [hit]. *)
Definition spec_aggregate (ms : list Measurement) : list Summary :=
  map (fun g => let '((t, m, p), h) := g in mkSummary t m p h)
      (spec_groups cell3_eq_dec team_match_phase m_hit (cube_rows ms)).

(** View filter, a known phase: only the rows of that phase. *)
Definition spec_view_phase (v : string) (ss : list Summary) : list Summary :=
  filter (fun s => if cell_eq_dec (s_phase s) (Str v) then true else false) ss.

(** View filter, otherwise: group by (team, match), sum [hit] across phases. *)
Definition spec_view_all (ss : list Summary) : list Total :=
  map (fun g => let '((t, m), h) := g in mkTotal t m h)
      (spec_groups cell2_eq_dec team_match s_hit ss).

(** [df["hit"].sum()]: the total of the [hit] column. *)
Definition hit_values (df : DataFrame) : result (list Z) :=
  series <- getitem df "hit" ;;
  int64_values series.

Definition hit_total (df : DataFrame) : result Z :=
  series <- getitem df "hit" ;;
  Pandas.sum series.

(** The (team, match, phase) tuple of a row. *)
Definition tuple_of (cols : list string) (names : list string) (r : row)
  : list (option cell) :=
  map (fun name => field cols name r) names.

(** *** Exact totals, for the proofs

    The same grouping with unbounded integers: what the int64 totals are
    congruent to, and equal to in the absence of overflow. *)
Fixpoint add_to_group_exact (k : key) (z : Z) (groups : list (key * Z))
  : list (key * Z) :=
  match groups with
  | [] => [(k, 0 + z)]
  | (k', total) :: rest =>
      if key_eqb k k' then (k', total + z) :: rest
      else (k', total) :: add_to_group_exact k z rest
  end.

Definition group_sums_exact (pairs : list (key * Z)) : list (key * Z) :=
  fold_left (fun groups p => add_to_group_exact (fst p) (snd p) groups) pairs [].

(** The total recorded for a key, and the exact sum of the values paired
    with it. *)
Fixpoint assoc (k : key) (groups : list (key * Z)) : option Z :=
  match groups with
  | [] => None
  | (k', total) :: rest => if key_eqb k k' then Some total else assoc k rest
  end.

Definition key_sum (k : key) (pairs : list (key * Z)) : Z :=
  Zsum (map snd (filter (fun p => key_eqb (fst p) k) pairs)).

Definition wrap_total (g : key * Z) : key * Z := (fst g, Int64.wrap (snd g)).

(** How the typed keys lie in the key columns. *)
Definition key3 (k : cell * cell * cell) : key :=
  let '(t, m, p) := k in [t; m; p].

Definition key2 (k : cell * cell) : key :=
  let '(t, m) := k in [t; m].

(** The measurement records whose team, match and phase are all present:
    the ones a group-by on the three keeps. *)
Definition has_keys (m : Measurement) : bool :=
  complete [m_team m; m_match m; m_phase m].

Definition present (ms : list Measurement) : list Measurement :=
  filter has_keys ms.

(** The rows of a frame whose [phase] cell is the string [v]. *)
Definition rows_of_phase (df : DataFrame) (v : string) : list row :=
  filter (fun r =>
            match field (columns df) "phase" r with
            | Some c => cell_eqb c (Str v)
            | None => false
            end) (data df).

(** A summary table containing only the phases "auto" and "tele". *)
Definition only_auto_tele (ss : list Summary) : bool :=
  forallb (fun s => cell_eqb (s_phase s) (Str "auto") || cell_eqb (s_phase s) (Str "tele")) ss.

(** The figure [_build_cube_histogram] draws from the filtered frame. *)
Definition cube_hist (filtered : DataFrame) (phase : value) : result Plotly.Figure :=
  let plot_title := ("Histogram of Cubes Placed Per Match: " ++ Py.format phase)%string in
  fig <- Plotly.histogram filtered "hit" plot_title
           "Cubes Placed by a Team in a Single Match" ;;
  Ok (Plotly.update_layout (Plotly.update_traces fig 1 "lightgrey") "Count").

(** *** Sample tables *)

Definition sample_raw : DataFrame :=
  {| columns := ["team"; "match"; "phase"; "task"; "hit"];
     data := [ [Str "frc1318"; Str "qm2"; Str "tele"; Str "cube_tele_high"; Int 2];
               [Str "frc1318"; Str "qm1"; Str "auto"; Str "cube_auto_high"; Int 1];
               [Str "frc1318"; Str "qm1"; Str "auto"; Str "cone_auto_high"; Int 5];
               [Str "frc1318"; Str "qm1"; Str "tele"; Str "cube_tele_low"; Int 3];
               [Str "frc2910"; Str "qm1"; Str "tele"; Str "cube_tele_low"; Int 4] ] |}.

(** A raw table with a cube row whose team was not recorded. *)
Definition sample_missing : DataFrame :=
  {| columns := ["team"; "match"; "phase"; "task"; "hit"];
     data := [ [Str "frc1318"; Str "qm1"; Str "auto"; Str "cube_auto_high"; Int 1];
               [NaN; Str "qm1"; Str "auto"; Str "cube_auto_low"; Int 2] ] |}.

Definition sample_summary : DataFrame :=
  {| columns := ["team"; "match"; "phase"; "hit"];
     data := [ [Int 1; Int 1; Str "auto"; Int 3];
               [Int 1; Int 1; Str "tele"; Int 2];
               [Int 2; Int 1; Str "auto"; Int 1] ] |}.

(** ** The rest of the module *)

(** *** Order of the rows a group-by returns *)

Definition key_lt (a b : key) : Prop := key_compare a b = Lt.

Definition group_lt (g h : key * Z) : Prop := key_lt (fst g) (fst h).

(** Rows in strictly ascending order of their first [n] cells. *)
Definition ascending (n : nat) (rows : list row) : Prop :=
  StronglySorted (fun r r' => key_lt (firstn n r) (firstn n r')) rows.



(** Group by (team, match) directly on the measurement records. *)
Definition team_match_of (m : Measurement) : cell * cell :=
  (m_team m, m_match m).

Definition spec_totals (ms : list Measurement) : list Total :=
  map (fun g => let '((t, m), h) := g in mkTotal t m h)
      (spec_groups cell2_eq_dec team_match_of m_hit (cube_rows ms)).

Definition of_phase (v : string) (m : Measurement) : bool :=
  if cell_eq_dec (m_phase m) (Str v) then true else false.

(** The key of a summary row is of the phase [v]. *)
Definition key_of_phase (v : string) (k : key) : bool :=
  match nth_error k 2 with
  | Some c => cell_eqb c (Str v)
  | None => false
  end.

(** *** The module on the store: load, aggregate, serve *)

Module Main.

(** The module-level names [tmeasures] and [cube_measures]. *)
Record Globals : Type := mkGlobals {
  tmeasures : Store.ref;
  cube_measures : Store.ref
}.

(** [load_team_measures()]; [read_feather] is what [pd.read_feather] makes
    of the file on disk, a frame or an exception. *)
Definition load_team_measures (read_feather : result DataFrame) : Store.M Store.ref :=
  df <~ Store.lift read_feather ;;
  Store.alloc (Store.Frame df).

(** [get_cube_measures(measures)] on a reference: [.loc] and [.agg] each
    allocate the frame they return. *)
Definition get_cube_measures (measures : Store.ref) : Store.M Store.ref :=
  task <~ Store.getattr measures "task" ;;
  mask <~ Store.lift (str_startswith task "cube") ;;
  cubes <~ Store.loc measures mask ;;
  Store.groupby_agg_sum cubes ["team"; "match"; "phase"] "hit".

(** The statements that run when the module is loaded:
    [tmeasures = load_team_measures()] and
    [cube_measures = get_cube_measures(tmeasures)]. *)
Definition init (read_feather : result DataFrame) : Store.M Globals :=
  t <~ load_team_measures read_feather ;;
  c <~ get_cube_measures t ;;
  Store.ret {| tmeasures := t; cube_measures := c |}.

(** [update_cube_hist(phase)], the registered callback: it reads the global
    [cube_measures]. *)
Definition update_cube_hist (g : Globals) (phase : value) : Store.M Store.ref :=
  _build_cube_histogram (cube_measures g) phase.

(** One request: Dash calls the callback and sends the figure it returns,
    as it is at that moment, to the page. *)
Definition respond (g : Globals) (phase : value) : Store.M Plotly.Figure :=
  fig <~ update_cube_hist g phase ;;
  Store.read_figure fig.

(** The callback fired once per value of the radio control, in order; an
    exception is the response to that request and the next request is served
    all the same. *)
Fixpoint serve (g : Globals) (events : list value) (st : Store.store)
  : list (result Plotly.Figure) * Store.store :=
  match events with
  | [] => ([], st)
  | phase :: rest =>
      let (response, st') := respond g phase st in
      let (responses, st'') := serve g rest st' in
      (response :: responses, st'')
  end.

End Main.

(** *** The measures table *)

Module Dash.

(** A Python dict from column labels to cells: keys are unique and keep the
    order in which they were first set. *)
Definition dict : Type := list (string * cell).

Fixpoint dict_set (k : string) (v : cell) (d : dict) : dict :=
  match d with
  | [] => [(k, v)]
  | (k', v') :: rest =>
      if String.eqb k' k then (k', v) :: rest else (k', v') :: dict_set k v rest
  end.

Fixpoint dict_get (k : string) (d : dict) : option cell :=
  match d with
  | [] => None
  | (k', v') :: rest => if String.eqb k' k then Some v' else dict_get k rest
  end.

(** [dict(pairs)]. *)
Definition dict_of (pairs : list (string * cell)) : dict :=
  fold_left (fun d p => dict_set (fst p) (snd p) d) pairs [].

(** One entry of the [columns] argument of [DataTable]. *)
Record Column : Type := mkColumn {
  name : string;
  id : string;
  deletable : bool;
  selectable : bool;
  type_ : string
}.

Record DataTable : Type := mkDataTable {
  dt_data : list dict;
  dt_columns : list Column;
  page_size : Z;
  sort_action : string;
  filter_action : string
}.

End Dash.

(** [df.to_dict("records")]: one dict per row, [dict(zip(columns, row))]. *)
Definition to_dict_records (df : DataFrame) : list Dash.dict :=
  map (fun r => Dash.dict_of (combine (columns df) r)) (data df).

(** The cells of the column at position [i]. *)
Definition column_cells (i : nat) (rows : list row) : list cell :=
  flat_map (fun r => match nth_error r i with Some c => [c] | None => [] end) rows.

(** The dtype of a column, as [str] prints it: [object] for a column that
    holds text, or no number at all; [float64] for numbers with a missing
    value among them; [int64] for numbers only. *)
Definition dtype (series : list cell) : string :=
  if existsb is_text series || negb (existsb is_number series) then "object"
  else if existsb is_missing series then "float64"
  else "int64".

(** [df.dtypes], in the order of the columns. *)
Definition dtypes (df : DataFrame) : list string :=
  map (fun i => dtype (column_cells i (data df))) (seq 0 (List.length (columns df))).

(** [_build_measures_table(measures)]. *)
Definition _build_measures_table (measures : DataFrame) : Dash.DataTable :=
  {| Dash.dt_data := to_dict_records measures;
     Dash.dt_columns :=
       map (fun cd =>
              let '(col_name, dtype) := cd in
              {| Dash.name := col_name;
                 Dash.id := col_name;
                 Dash.deletable := true;
                 Dash.selectable := true;
                 Dash.type_ :=
                   if String.eqb (str_lower dtype) "int64" then "numeric" else "any" |})
           (combine (columns measures) (dtypes measures));
     Dash.page_size := 15;
     Dash.sort_action := "native";
     Dash.filter_action := "native" |}.

(** * Properties *)

(** ** int64 arithmetic *)

Section Int64Facts.

Import Int64.

Lemma wrap_add_l (a b : Z) : wrap (wrap a + b) = wrap (a + b).
Proof.
  unfold wrap.
  replace ((a + 2 ^ 63) mod 2 ^ 64 - 2 ^ 63 + b + 2 ^ 63)
    with ((a + 2 ^ 63) mod 2 ^ 64 + b) by lia.
  rewrite Zplus_mod_idemp_l.
  f_equal. f_equal. lia.
Qed.

Lemma wrap_add_r (a b : Z) : wrap (a + wrap b) = wrap (a + b).
Proof.
  rewrite (Z.add_comm a (wrap b)), wrap_add_l. f_equal. ring.
Qed.

Lemma wrap_small (z : Z) : min_int <= z <= max_int -> wrap z = z.
Proof.
  unfold wrap, min_int, max_int. intros H.
  rewrite Z.mod_small; lia.
Qed.

Lemma in_range_spec (z : Z) : in_range z = true <-> min_int <= z <= max_int.
Proof.
  unfold in_range. rewrite andb_true_iff, !Z.leb_le. tauto.
Qed.

Lemma wrap_in_range (z : Z) : in_range (wrap z) = true.
Proof.
  apply in_range_spec. unfold wrap, min_int, max_int.
  assert (0 <= (z + 2 ^ 63) mod 2 ^ 64 < 2 ^ 64) by (apply Z.mod_pos_bound; lia).
  lia.
Qed.

Lemma sum_from (l : list Z) (a : Z) :
  fold_left add l (wrap a) = wrap (a + Zsum l).
Proof.
  revert a. induction l as [|z l IH]; intros a; simpl.
  - f_equal. ring.
  - unfold add at 2. rewrite wrap_add_l, IH. f_equal. ring.
Qed.

Lemma sum_wrap (l : list Z) : sum l = wrap (Zsum l).
Proof.
  unfold sum. change 0 with (wrap 0) at 1. now rewrite sum_from.
Qed.

Lemma add_wrap (a b : Z) : add (wrap a) (wrap b) = wrap (a + b).
Proof.
  unfold add. now rewrite wrap_add_l, wrap_add_r.
Qed.

End Int64Facts.

Lemma Zsum_app (l l' : list Z) : Zsum (l ++ l') = Zsum l + Zsum l'.
Proof.
  induction l as [|z l IH]; simpl; [reflexivity | rewrite IH; ring].
Qed.

Lemma Zsum_nonneg (l : list Z) : Forall (fun z => 0 <= z) l -> 0 <= Zsum l.
Proof.
  induction 1; simpl; lia.
Qed.

Lemma Zsum_perm (l l' : list Z) : Permutation l l' -> Zsum l = Zsum l'.
Proof.
  induction 1; simpl; lia.
Qed.

Lemma wrap_Zsum_map_wrap (l : list Z) :
  Int64.wrap (Zsum (map Int64.wrap l)) = Int64.wrap (Zsum l).
Proof.
  induction l as [|z l IH]; simpl; [reflexivity|].
  rewrite wrap_add_l, <- wrap_add_r, IH, wrap_add_r. reflexivity.
Qed.

(** ** Equality tests *)

Lemma cell_eqb_spec (a b : cell) : reflect (a = b) (cell_eqb a b).
Proof.
  destruct a as [s|x|], b as [t|y|]; simpl; try (constructor; congruence).
  - destruct (String.eqb_spec s t); constructor; congruence.
  - destruct (Z.eqb_spec x y); constructor; congruence.
Qed.

Lemma key_eqb_spec (a b : key) : reflect (a = b) (key_eqb a b).
Proof.
  revert b. induction a as [|x a IH]; intros [|y b]; simpl;
    try (constructor; congruence).
  destruct (cell_eqb_spec x y) as [->|Hxy]; simpl.
  - destruct (IH b) as [->|Hab]; constructor; congruence.
  - constructor; congruence.
Qed.

Lemma key_eqb_refl (k : key) : key_eqb k k = true.
Proof.
  now destruct (key_eqb_spec k k).
Qed.

Lemma key_eq_dec (a b : key) : {a = b} + {a <> b}.
Proof.
  apply (list_eq_dec cell_eq_dec).
Defined.

(** ** Grouping *)

Section Grouping.

Lemma assoc_add_exact (k k' : key) (z : Z) (gs : list (key * Z)) :
  assoc k' (add_to_group_exact k z gs) =
  if key_eqb k' k
  then Some (match assoc k gs with Some a => a | None => 0 end + z)
  else assoc k' gs.
Proof.
  induction gs as [|[k0 a] gs IH]; simpl.
  - destruct (key_eqb k' k); reflexivity.
  - destruct (key_eqb_spec k k0) as [->|Hne]; simpl.
    + destruct (key_eqb_spec k' k0); reflexivity.
    + rewrite IH.
      destruct (key_eqb_spec k' k0) as [->|Hne'].
      * destruct (key_eqb_spec k0 k); congruence.
      * reflexivity.
Qed.

Lemma keys_add_exact (k : key) (z : Z) (gs : list (key * Z)) :
  map fst (add_to_group_exact k z gs) =
  if in_dec key_eq_dec k (map fst gs) then map fst gs else map fst gs ++ [k].
Proof.
  induction gs as [|[k0 a] gs IH]; simpl; [reflexivity|].
  destruct (key_eqb_spec k k0) as [->|Hne]; simpl.
  - destruct (key_eq_dec k0 k0); congruence.
  - rewrite IH. destruct (key_eq_dec k0 k); [congruence|].
    destruct (in_dec key_eq_dec k (map fst gs)); reflexivity.
Qed.

Lemma total_add_exact (k : key) (z : Z) (gs : list (key * Z)) :
  Zsum (map snd (add_to_group_exact k z gs)) = Zsum (map snd gs) + z.
Proof.
  induction gs as [|[k0 a] gs IH]; simpl; [lia|].
  destruct (key_eqb k k0); simpl; lia.
Qed.

Lemma nonneg_add_exact (k : key) (z : Z) (gs : list (key * Z)) :
  0 <= z ->
  Forall (fun g => 0 <= snd g) gs ->
  Forall (fun g => 0 <= snd g) (add_to_group_exact k z gs).
Proof.
  intros Hz. induction 1 as [|[k0 a] gs Ha Hgs IH]; simpl.
  - repeat constructor. simpl. lia.
  - simpl in Ha. destruct (key_eqb k k0); constructor; simpl; auto; lia.
Qed.

Lemma add_to_group_wrap (k : key) (z : Z) (gs : list (key * Z)) :
  add_to_group k z (map wrap_total gs) = map wrap_total (add_to_group_exact k z gs).
Proof.
  induction gs as [|[k0 a] gs IH]; simpl; [reflexivity|].
  destruct (key_eqb k k0); simpl.
  - unfold wrap_total at 3. simpl. unfold Int64.add.
    now rewrite wrap_add_l.
  - now rewrite IH.
Qed.

Lemma group_sums_exact_snoc (l : list (key * Z)) (p : key * Z) :
  group_sums_exact (l ++ [p]) = add_to_group_exact (fst p) (snd p) (group_sums_exact l).
Proof.
  unfold group_sums_exact. now rewrite fold_left_app.
Qed.

Lemma group_sums_snoc (l : list (key * Z)) (p : key * Z) :
  group_sums (l ++ [p]) = add_to_group (fst p) (snd p) (group_sums l).
Proof.
  unfold group_sums. now rewrite fold_left_app.
Qed.

(** The int64 totals are the exact totals, wrapped. *)
Lemma group_sums_wrap (pairs : list (key * Z)) :
  group_sums pairs = map wrap_total (group_sums_exact pairs).
Proof.
  induction pairs as [|p l IH] using rev_ind; [reflexivity|].
  now rewrite group_sums_snoc, group_sums_exact_snoc, IH, add_to_group_wrap.
Qed.

Lemma key_sum_snoc (k : key) (l : list (key * Z)) (p : key * Z) :
  key_sum k (l ++ [p]) = key_sum k l + (if key_eqb (fst p) k then snd p else 0).
Proof.
  unfold key_sum. rewrite filter_app, map_app, Zsum_app. simpl.
  destruct (key_eqb (fst p) k); simpl; lia.
Qed.

Lemma key_sum_absent (k : key) (l : list (key * Z)) :
  ~ In k (map fst l) -> key_sum k l = 0.
Proof.
  unfold key_sum. induction l as [|[k0 a] l IH]; simpl; intros Hk; [reflexivity|].
  destruct (key_eqb_spec k0 k) as [->|Hne]; [tauto|].
  apply IH. tauto.
Qed.

Lemma keys_group_sums_exact (pairs : list (key * Z)) :
  NoDup (map fst (group_sums_exact pairs))
  /\ forall k, In k (map fst (group_sums_exact pairs)) <-> In k (map fst pairs).
Proof.
  induction pairs as [|p l [IHnd IHin]] using rev_ind.
  - split; [constructor | reflexivity].
  - rewrite group_sums_exact_snoc, keys_add_exact.
    destruct (in_dec key_eq_dec (fst p) (map fst (group_sums_exact l))) as [Hin|Hnin].
    + split; [assumption|]. intros k. rewrite map_app, in_app_iff, IHin. simpl.
      split; [tauto|]. intros [H|[<-|[]]]; [assumption|]. now apply IHin.
    + split.
      * apply NoDup_app; [assumption | repeat constructor; simpl; tauto |].
        intros k Hk [<-|[]]. contradiction.
      * intros k. rewrite !map_app, !in_app_iff, IHin. reflexivity.
Qed.

Lemma assoc_group_sums_exact (pairs : list (key * Z)) (k : key) :
  assoc k (group_sums_exact pairs) =
  if in_dec key_eq_dec k (map fst pairs) then Some (key_sum k pairs) else None.
Proof.
  induction pairs as [|p l IH] using rev_ind; [reflexivity|].
  rewrite group_sums_exact_snoc, assoc_add_exact, key_sum_snoc.
  destruct (key_eqb_spec k (fst p)) as [->|Hne].
  - rewrite key_eqb_refl.
    destruct (in_dec key_eq_dec (fst p) (map fst (l ++ [p]))) as [_|Hn].
    2:{ exfalso. apply Hn. rewrite map_app, in_app_iff. simpl. tauto. }
    rewrite IH.
    destruct (in_dec key_eq_dec (fst p) (map fst l)) as [Hin|Hnin]; [reflexivity|].
    now rewrite key_sum_absent.
  - destruct (key_eqb_spec (fst p) k) as [Heq|_]; [congruence|].
    rewrite IH, Z.add_0_r.
    destruct (in_dec key_eq_dec k (map fst l)) as [Hin|Hnin];
      destruct (in_dec key_eq_dec k (map fst (l ++ [p]))) as [Hin'|Hnin'];
      try reflexivity; exfalso.
    + apply Hnin'. rewrite map_app, in_app_iff. tauto.
    + rewrite map_app, in_app_iff in Hin'. simpl in Hin'.
      destruct Hin' as [H|[H|[]]]; [tauto | congruence].
Qed.

Lemma assoc_In (gs : list (key * Z)) (k : key) (v : Z) :
  NoDup (map fst gs) -> (In (k, v) gs <-> assoc k gs = Some v).
Proof.
  induction gs as [|[k0 a] gs IH]; simpl; intros Hnd.
  - split; [tauto | discriminate].
  - inversion Hnd as [|? ? Hk0 Hnd']; subst.
    destruct (key_eqb_spec k k0) as [->|Hne].
    + split.
      * intros [H|H]; [congruence|].
        exfalso. apply Hk0. change k0 with (fst (k0, v)). now apply in_map.
      * intros H. left. congruence.
    + rewrite <- (IH Hnd'). split; [|tauto].
      intros [H|H]; [congruence | assumption].
Qed.

End Grouping.

(** ** Sorting the groups *)

Lemma insert_group_perm (g : key * Z) (gs : list (key * Z)) :
  Permutation (insert_group g gs) (g :: gs).
Proof.
  induction gs as [|h gs IH]; simpl; [reflexivity|].
  destruct (key_compare (fst g) (fst h)); try reflexivity.
  rewrite IH. apply perm_swap.
Qed.

Lemma sort_groups_perm (gs : list (key * Z)) : Permutation (sort_groups gs) gs.
Proof.
  induction gs as [|g gs IH]; simpl; [reflexivity|].
  rewrite insert_group_perm. now constructor.
Qed.

(** ** What [groupby(...).agg({..: "sum"})] computes *)

Lemma groups_perm_exact (pairs : list (key * Z)) :
  Permutation (sort_groups (group_sums pairs))
              (map wrap_total (group_sums_exact pairs)).
Proof.
  rewrite <- group_sums_wrap. apply sort_groups_perm.
Qed.

Lemma map_fst_wrap_total (gs : list (key * Z)) :
  map fst (map wrap_total gs) = map fst gs.
Proof.
  rewrite map_map. apply map_ext. reflexivity.
Qed.

Lemma groups_keys_NoDup (pairs : list (key * Z)) :
  NoDup (map fst (sort_groups (group_sums pairs))).
Proof.
  eapply Permutation_NoDup.
  - symmetry. apply Permutation_map, groups_perm_exact.
  - rewrite map_fst_wrap_total. apply keys_group_sums_exact.
Qed.

(** One group per distinct key, holding the int64 sum of that key's
    values. *)
Lemma groups_In (pairs : list (key * Z)) (k : key) (v : Z) :
  In (k, v) (sort_groups (group_sums pairs)) <->
  In k (map fst pairs) /\ v = Int64.wrap (key_sum k pairs).
Proof.
  destruct (keys_group_sums_exact pairs) as [Hnd Hkeys].
  assert (Hperm := groups_perm_exact pairs).
  assert (Hassoc := assoc_group_sums_exact pairs k).
  split.
  - intros Hin. apply (Permutation_in _ Hperm) in Hin.
    apply in_map_iff in Hin. destruct Hin as [[k0 e] [Heq Hin]].
    unfold wrap_total in Heq. simpl in Heq. inversion Heq; subst.
    apply (assoc_In _ _ _ Hnd) in Hin. rewrite Hin in Hassoc.
    destruct (in_dec key_eq_dec k (map fst pairs)); [|discriminate].
    split; [assumption | congruence].
  - intros [Hin ->].
    apply (Permutation_in _ (Permutation_sym Hperm)).
    apply in_map_iff. exists (k, key_sum k pairs). split; [reflexivity|].
    apply (assoc_In _ _ _ Hnd). rewrite Hassoc.
    destruct (in_dec key_eq_dec k (map fst pairs)); [reflexivity | contradiction].
Qed.

Lemma total_group_sums_exact (pairs : list (key * Z)) :
  Zsum (map snd (group_sums_exact pairs)) = Zsum (map snd pairs).
Proof.
  induction pairs as [|p l IH] using rev_ind; [reflexivity|].
  rewrite group_sums_exact_snoc, total_add_exact, IH, map_app, Zsum_app.
  simpl. lia.
Qed.

(** The totals of the groups add up to the total of the values, in int64. *)
Lemma groups_total (pairs : list (key * Z)) :
  Int64.wrap (Zsum (map snd (sort_groups (group_sums pairs)))) =
  Int64.wrap (Zsum (map snd pairs)).
Proof.
  rewrite (Zsum_perm _ _ (Permutation_map snd (groups_perm_exact pairs))).
  rewrite <- (total_group_sums_exact pairs).
  replace (map snd (map wrap_total (group_sums_exact pairs)))
    with (map Int64.wrap (map snd (group_sums_exact pairs)))
    by (rewrite !map_map; reflexivity).
  apply wrap_Zsum_map_wrap.
Qed.

Lemma nonneg_group_sums_exact (pairs : list (key * Z)) :
  Forall (fun p => 0 <= snd p) pairs ->
  Forall (fun g => 0 <= snd g) (group_sums_exact pairs).
Proof.
  induction pairs as [|p l IH] using rev_ind; intros H; [constructor|].
  apply Forall_app in H. destruct H as [Hl Hp].
  rewrite group_sums_exact_snoc. apply nonneg_add_exact; [|auto].
  now inversion Hp.
Qed.

Lemma nonneg_le_Zsum (l : list Z) (z : Z) :
  Forall (fun z => 0 <= z) l -> In z l -> 0 <= z <= Zsum l.
Proof.
  induction 1 as [|a l Ha Hl IH]; simpl; [tauto|].
  assert (0 <= Zsum l) by now apply Zsum_nonneg.
  intros [->|Hin]; [lia|]. specialize (IH Hin). lia.
Qed.

(** Without overflow the int64 totals are the exact ones. *)
Lemma groups_no_overflow (pairs : list (key * Z)) :
  Forall (fun p => 0 <= snd p) pairs ->
  Zsum (map snd pairs) <= Int64.max_int ->
  Permutation (sort_groups (group_sums pairs)) (group_sums_exact pairs).
Proof.
  intros Hpos Hmax. rewrite groups_perm_exact.
  assert (Hnn := nonneg_group_sums_exact _ Hpos).
  assert (Htot := total_group_sums_exact pairs).
  replace (map wrap_total (group_sums_exact pairs))
    with (map (fun g => g) (group_sums_exact pairs)); [now rewrite map_id|].
  apply map_ext_in. intros [k e] Hin. unfold wrap_total. simpl. f_equal.
  symmetry. apply wrap_small.
  assert (0 <= e <= Zsum (map snd (group_sums_exact pairs))).
  { apply nonneg_le_Zsum.
    - apply Forall_map. exact Hnn.
    - change e with (snd (k, e)). now apply in_map. }
  unfold Int64.min_int. lia.
Qed.

Lemma groups_total_exact (pairs : list (key * Z)) :
  Forall (fun p => 0 <= snd p) pairs ->
  Zsum (map snd pairs) <= Int64.max_int ->
  Zsum (map snd (sort_groups (group_sums pairs))) = Zsum (map snd pairs).
Proof.
  intros Hpos Hmax.
  rewrite (Zsum_perm _ _ (Permutation_map snd (groups_no_overflow _ Hpos Hmax))).
  apply total_group_sums_exact.
Qed.

(** ** The pandas grouping against the specification's grouping *)

Lemma NoDup_map_inj {A B} (f : A -> B) (l : list A) :
  (forall a b, f a = f b -> a = b) -> NoDup l -> NoDup (map f l).
Proof.
  intros Hinj. induction 1 as [|a l Ha Hl IH]; simpl; constructor; [|assumption].
  intros Hin. apply in_map_iff in Hin. destruct Hin as [b [Hb Hin]].
  apply Hinj in Hb. now subst.
Qed.

Section Refinement.

Context {A K : Type}.
Variable K_eq_dec : forall a b : K, {a = b} + {a <> b}.
Variable key_of : A -> K.
Variable val_of : A -> Z.

(** How a typed key is laid out in the key columns. *)
Variable enc : K -> key.
Hypothesis enc_inj : forall a b, enc a = enc b -> a = b.

Lemma key_sum_group_of (k : K) (l : list A) :
  key_sum (enc k) (map (fun a => (enc (key_of a), val_of a)) l) = Zsum (map val_of (group_of K_eq_dec key_of k l)).
Proof.
  unfold key_sum, group_of.
  induction l as [|a l IH]; simpl; [reflexivity|].
  destruct (key_eqb_spec (enc (key_of a)) (enc k)) as [Heq|Hne];
    destruct (K_eq_dec (key_of a) k) as [Hk|Hk]; simpl.
  - now rewrite IH.
  - apply enc_inj in Heq. contradiction.
  - subst. contradiction.
  - exact IH.
Qed.

Lemma groups_refine (l : list A) :
  Permutation (sort_groups (group_sums (map (fun a => (enc (key_of a), val_of a)) l)))
              (map (fun g => (enc (fst g), snd g)) (spec_groups K_eq_dec key_of val_of l)).
Proof.
  apply NoDup_Permutation.
  - apply (NoDup_map_inv fst), groups_keys_NoDup.
  - apply (NoDup_map_inv fst). unfold spec_groups. rewrite !map_map. simpl.
    apply NoDup_map_inj; [exact enc_inj | apply NoDup_nodup].
  - intros [k v]. rewrite groups_In. unfold spec_groups.
    rewrite (map_map _ fst), (map_map _ (fun g => (enc (fst g), snd g))).
    cbn [fst snd]. split.
    + intros [Hin ->].
      apply in_map_iff in Hin. destruct Hin as [a [Hk Ha]].
      apply in_map_iff. exists (key_of a). split.
      * rewrite <- Hk. f_equal. f_equal. symmetry. apply key_sum_group_of.
      * apply nodup_In. now apply in_map.
    + intros Hin. apply in_map_iff in Hin. destruct Hin as [k0 [Heq Hin]].
      inversion Heq; subst. apply nodup_In in Hin.
      apply in_map_iff in Hin. destruct Hin as [a [Hk Ha]]. split.
      * apply in_map_iff. exists a. split; [now rewrite Hk | assumption].
      * f_equal. symmetry. apply key_sum_group_of.
Qed.

End Refinement.

(** ** Reading frames *)

Lemma traverse_Forall2 {A B} (f : A -> option B) (l : list A) (l' : list B) :
  traverse f l = Some l' -> Forall2 (fun a b => f a = Some b) l l'.
Proof.
  revert l'. induction l as [|a l IH]; simpl; intros l' H.
  - inversion H. constructor.
  - destruct (f a) eqn:Ha; [|discriminate].
    destruct (traverse f l) eqn:Hl; [|discriminate].
    inversion H; subst. constructor; auto.
Qed.

Lemma mapM_map {A B C} (f : B -> result C) (g : A -> B) (h : A -> C) (l : list A) :
  (forall a, In a l -> f (g a) = Ok (h a)) -> mapM f (map g l) = Ok (map h l).
Proof.
  induction l as [|a l IH]; simpl; intros H; [reflexivity|].
  rewrite (H a), IH; auto.
Qed.

Lemma Forall2_select {A} (P : row -> A -> Prop) (keep : A -> bool)
      (rows : list row) (l : list A) :
  Forall2 P rows l -> Forall2 P (select (map keep l) rows) (filter keep l).
Proof.
  induction 1 as [|r a rows l Hra Hl IH]; simpl; [constructor|].
  destruct (keep a); [constructor|]; assumption.
Qed.

(** The fields of a row that reads as a measurement. *)
Lemma measurement_of_fields (cols : list string) (r : row) (m : Measurement) :
  measurement_of cols r = Some m ->
  field cols "team" r = Some (m_team m)
  /\ field cols "match" r = Some (m_match m)
  /\ field cols "phase" r = Some (m_phase m)
  /\ field cols "task" r = Some (Str (m_task m))
  /\ field cols "hit" r = Some (Int (m_hit m))
  /\ Int64.in_range (m_hit m) = true.
Proof.
  unfold measurement_of.
  destruct (field cols "team" r) as [t|]; [|discriminate].
  destruct (field cols "match" r) as [mt|]; [|discriminate].
  destruct (field cols "phase" r) as [p|]; [|discriminate].
  destruct (field cols "task" r) as [[k| |]|]; try discriminate.
  destruct (field cols "hit" r) as [[|h|]|]; try discriminate.
  destruct (Int64.in_range h) eqn:Hr; [|discriminate].
  intros H. inversion H; subst; simpl. tauto.
Qed.

Lemma field_nth (cols : list string) (name : string) (i : nat) (r : row) (c : cell) :
  get_loc name cols = Some i -> field cols name r = Some c -> nth_error r i = Some c.
Proof.
  unfold field. now intros ->.
Qed.

Lemma is_some_get_loc (name : string) (cols : list string) :
  is_some (get_loc name cols) = true -> exists i, get_loc name cols = Some i.
Proof.
  destruct (get_loc name cols) as [i|]; [eauto | discriminate].
Qed.

Lemma mapM_Forall2_map {A B C} (f : A -> result B) (h : C -> B)
      (l : list A) (l' : list C) :
  Forall2 (fun a c => f a = Ok (h c)) l l' -> mapM f l = Ok (map h l').
Proof.
  induction 1 as [|a c l l' Ha Hl IH]; simpl; [reflexivity|].
  now rewrite Ha, IH.
Qed.

Lemma take_fields {A} (cols : list string) (name : string) (i : nat)
      (g : A -> cell) (rows : list row) (l : list A) :
  get_loc name cols = Some i ->
  Forall2 (fun r a => field cols name r = Some (g a)) rows l ->
  take i rows = Ok (map g l).
Proof.
  intros Hi H. unfold take. apply mapM_Forall2_map.
  eapply Forall2_impl; [|exact H].
  intros r a Hf. simpl in Hf. now rewrite (field_nth _ _ _ _ _ Hi Hf).
Qed.

Lemma raw_table_inv (T : DataFrame) :
  raw_table T = true ->
  exists ms it im ip ik ih,
    measurements T = Some ms
    /\ get_loc "team" (columns T) = Some it
    /\ get_loc "match" (columns T) = Some im
    /\ get_loc "phase" (columns T) = Some ip
    /\ get_loc "task" (columns T) = Some ik
    /\ get_loc "hit" (columns T) = Some ih.
Proof.
  unfold raw_table. rewrite !andb_true_iff. simpl. rewrite !andb_true_iff.
  intros [[_ (Ht & Hm & Hp & Hk & Hh & _)] Hms].
  destruct (measurements T) as [ms|]; [|discriminate].
  destruct (is_some_get_loc _ _ Ht) as [it Hit].
  destruct (is_some_get_loc _ _ Hm) as [im Him].
  destruct (is_some_get_loc _ _ Hp) as [ip Hip].
  destruct (is_some_get_loc _ _ Hk) as [ik Hik].
  destruct (is_some_get_loc _ _ Hh) as [ih Hih].
  exists ms, it, im, ip, ik, ih. tauto.
Qed.

Lemma filter_perm {A} (f : A -> bool) (l l' : list A) :
  Permutation l l' -> Permutation (filter f l) (filter f l').
Proof.
  induction 1 as [|a l l' H IH|a b l|l l' l'' H1 IH1 H2 IH2]; simpl.
  - constructor.
  - destruct (f a); [constructor|]; assumption.
  - destruct (f a), (f b); try reflexivity. apply perm_swap.
  - now transitivity (filter f l').
Qed.

Lemma filter_swap {A} (f g : A -> bool) (l : list A) :
  filter f (filter g l) = filter g (filter f l).
Proof.
  induction l as [|a l IH]; simpl; [reflexivity|].
  destruct (f a) eqn:Hf, (g a) eqn:Hg; simpl; rewrite ?Hf, ?Hg, IH; reflexivity.
Qed.

Lemma filter_map_commute {A B} (f : B -> bool) (g : A -> B) (l : list A) :
  filter f (map g l) = map g (filter (fun a => f (g a)) l).
Proof.
  induction l as [|a l IH]; simpl; [reflexivity|].
  destruct (f (g a)); simpl; now rewrite IH.
Qed.

Lemma booleans_Some (l : list bool) : booleans (map Some l) = Some l.
Proof.
  induction l as [|b l IH]; simpl; [reflexivity | now rewrite IH].
Qed.

Lemma str_startswith_text {A} (f : A -> string) (l : list A) (p : string) :
  str_startswith (map (fun a => Str (f a)) l) p =
  Ok (map (fun a => Some (Py.str_startswith (f a) p)) l).
Proof.
  unfold str_startswith.
  assert (H : existsb is_number (map (fun a => Str (f a)) l) = false)
    by (induction l; simpl; auto).
  rewrite H, orb_true_r, map_map. reflexivity.
Qed.

Lemma int64_pairs_Int {A} (k : A -> key) (z : A -> Z) (l : list A) :
  int64_pairs (map (fun a => (k a, Int (z a))) l) = Some (map (fun a => (k a, z a)) l).
Proof.
  induction l as [|a l IH]; simpl; [reflexivity | now rewrite IH].
Qed.

Lemma dropna_map {A V} (k : A -> key) (v : A -> V) (l : list A) :
  dropna (map (fun a => (k a, v a)) l) =
  map (fun a => (k a, v a)) (filter (fun a => complete (k a)) l).
Proof.
  exact (filter_map_commute (fun p => complete (fst p)) (fun a => (k a, v a)) l).
Qed.

(** ** [get_cube_measures] *)

(** The (key, value) pairs the aggregator groups: the cube rows with no
    missing key. *)
Lemma get_cube_measures_eq (T : DataFrame) (ms : list Measurement) :
  raw_table T = true ->
  measurements T = Some ms ->
  get_cube_measures T =
  Ok {| columns := summary_columns;
        data := map group_row
                  (sort_groups
                     (group_sums
                        (map (fun m => (key3 (team_match_phase m), m_hit m))
                             (cube_rows (present ms))))) |}.
Proof.
  intros Hraw Hms.
  destruct (raw_table_inv T Hraw) as (ms' & it & im & ip & ik & ih & Hms' & Hit & Him & Hip & Hik & Hih).
  clear Hms'. unfold measurements in Hms. apply traverse_Forall2 in Hms.
  assert (Hfields : Forall2 (fun r m =>
            field (columns T) "team" r = Some (m_team m)
            /\ field (columns T) "match" r = Some (m_match m)
            /\ field (columns T) "phase" r = Some (m_phase m)
            /\ field (columns T) "task" r = Some (Str (m_task m))
            /\ field (columns T) "hit" r = Some (Int (m_hit m))
            /\ Int64.in_range (m_hit m) = true) (data T) ms).
  { eapply Forall2_impl; [|exact Hms]. intros r m. apply measurement_of_fields. }
  unfold get_cube_measures, getattr. rewrite Hik. simpl.
  rewrite (take_fields (columns T) "task" ik (fun m => Str (m_task m)) (data T) ms Hik).
  2:{ eapply Forall2_impl; [|exact Hfields]. simpl. tauto. }
  cbn [Py.bind]. rewrite (str_startswith_text m_task ms "cube"). cbn [Py.bind].
  change (map (fun a => Some (Py.str_startswith (m_task a) "cube")) ms)
    with (map (fun m => Some (is_cube m)) ms).
  unfold loc. rewrite <- (map_map is_cube Some), booleans_Some.
  rewrite length_map, (Forall2_length Hms), Nat.eqb_refl.
  cbn [Py.bind]. unfold groupby_agg_sum. cbn [columns data mapM].
  rewrite Hit, Him, Hip, Hih. cbn [of_option Py.bind].
  rewrite (mapM_Forall2_map _
             (fun m => (key3 (team_match_phase m), Int (m_hit m)))
             _ (filter is_cube ms)).
  - cbn [Py.bind].
    rewrite (int64_pairs_Int (fun m => key3 (team_match_phase m)) m_hit).
    rewrite (dropna_map (fun m => key3 (team_match_phase m)) m_hit).
    unfold cube_rows, present.
    rewrite (filter_swap is_cube has_keys). reflexivity.
  - apply Forall2_select. eapply Forall2_impl; [|exact Hfields].
    intros r m (Ht & Hm & Hp & _ & Hh & _). unfold key_value. simpl.
    rewrite (field_nth _ _ _ _ _ Hit Ht), (field_nth _ _ _ _ _ Him Hm),
      (field_nth _ _ _ _ _ Hip Hp), (field_nth _ _ _ _ _ Hih Hh).
    reflexivity.
Qed.

Lemma key3_inj (a b : cell * cell * cell) : key3 a = key3 b -> a = b.
Proof.
  destruct a as [[t m] p], b as [[t' m'] p']. simpl. congruence.
Qed.

Lemma key2_inj (a b : cell * cell) : key2 a = key2 b -> a = b.
Proof.
  destruct a as [t m], b as [t' m']. simpl. congruence.
Qed.

Lemma summary_rows_of_groups (gs : list (cell * cell * cell * Z)) :
  map group_row (map (fun g => (key3 (fst g), snd g)) gs) =
  map summary_row (map (fun g => let '((t, m, p), h) := g in mkSummary t m p h) gs).
Proof.
  rewrite !map_map. apply map_ext. intros [[[t m] p] h]. reflexivity.
Qed.

Lemma present_all (ms : list Measurement) :
  forallb has_keys ms = true -> present ms = ms.
Proof.
  unfold present. induction ms as [|m ms IH]; simpl; [reflexivity|].
  rewrite andb_true_iff. intros [-> H]. now rewrite IH.
Qed.

(** C1, as amended.  On every raw measurement table the category aggregator
    returns the columns team, match, phase, hit, in this order, and its rows
    are, up to their order, the specification's aggregate of the rows whose
    team, match and phase are all present: of these, the rows whose task
    starts with "cube", grouped by (team, match, phase), with [hit] summed in
    each group.  A row with a missing key is in no group.  On a table without
    missing keys this is the aggregate of all its rows. *)
Theorem get_cube_measures_refines_spec (T : DataFrame) :
  raw_table T = true ->
  exists out ms,
    get_cube_measures T = Ok out
    /\ measurements T = Some ms
    /\ columns out = ["team"; "match"; "phase"; "hit"]
    /\ Permutation (data out) (map summary_row (spec_aggregate (present ms)))
    /\ (forallb has_keys ms = true ->
        Permutation (data out) (map summary_row (spec_aggregate ms))).
Proof.
  intros Hraw.
  destruct (raw_table_inv T Hraw) as (ms & _ & _ & _ & _ & _ & Hms & _).
  eexists. exists ms. split; [apply (get_cube_measures_eq T ms Hraw Hms)|].
  split; [assumption|]. split; [reflexivity|]. cbn [data].
  assert (Hp : Permutation
                 (map group_row
                    (sort_groups
                       (group_sums
                          (map (fun m => (key3 (team_match_phase m), m_hit m))
                               (cube_rows (present ms))))))
                 (map summary_row (spec_aggregate (present ms)))).
  { unfold spec_aggregate. rewrite <- summary_rows_of_groups.
    apply Permutation_map.
    apply (groups_refine cell3_eq_dec team_match_phase m_hit key3 key3_inj). }
  split; [exact Hp|].
  intros Hall. rewrite (present_all ms Hall) in Hp.
  now rewrite (present_all ms Hall).
Qed.

Lemma get_cube_measures_refines_spec_witness :
  raw_table sample_missing = true
  /\ exists out ms,
       get_cube_measures sample_missing = Ok out
       /\ measurements sample_missing = Some ms
       /\ columns out = ["team"; "match"; "phase"; "hit"]
       /\ Permutation (data out) (map summary_row (spec_aggregate (present ms)))
       /\ (forallb has_keys ms = true ->
           Permutation (data out) (map summary_row (spec_aggregate ms))).
Proof.
  split; [reflexivity|].
  apply (get_cube_measures_refines_spec sample_missing). reflexivity.
Defined.

(** C1 as it was stated fails on a raw table with a missing key: of the two
    cube rows of [sample_missing] the aggregator keeps one, the
    specification's aggregate both. *)
Lemma get_cube_measures_refines_spec_counterexample :
  raw_table sample_missing = true
  /\ ~ (exists out ms,
          get_cube_measures sample_missing = Ok out
          /\ measurements sample_missing = Some ms
          /\ columns out = ["team"; "match"; "phase"; "hit"]
          /\ Permutation (data out) (map summary_row (spec_aggregate ms))).
Proof.
  split; [reflexivity|].
  intros (out & ms & Hout & Hms & _ & Hp).
  vm_compute in Hout, Hms. inversion Hout; subst out. inversion Hms; subst ms.
  apply Permutation_length in Hp. vm_compute in Hp. discriminate.
Qed.

(** ** The output of a grouping, column by column *)

Lemma groups_keys_length (n : nat) (pairs : list (key * Z)) :
  Forall (fun p => List.length (fst p) = n) pairs ->
  Forall (fun g => List.length (fst g) = n) (sort_groups (group_sums pairs)).
Proof.
  intros H. apply Forall_forall. intros [k v] Hin.
  apply groups_In in Hin. destruct Hin as [Hk _].
  apply in_map_iff in Hk. destruct Hk as [p [<- Hp]].
  rewrite Forall_forall in H. simpl. now apply H.
Qed.

Lemma take_group_rows (n : nat) (gs : list (key * Z)) :
  Forall (fun g => List.length (fst g) = n) gs ->
  take n (map group_row gs) = Ok (map (fun g => Int (snd g)) gs).
Proof.
  intros H. unfold take. apply mapM_map. intros [k v] Hin.
  rewrite Forall_forall in H. specialize (H _ Hin). simpl in H.
  unfold group_row. simpl.
  rewrite nth_error_app2 by lia. subst n. now rewrite Nat.sub_diag.
Qed.

Lemma int64_values_Int {A} (f : A -> Z) (l : list A) :
  int64_values (map (fun a => Int (f a)) l) = Ok (map f l).
Proof.
  unfold int64_values. now apply mapM_map.
Qed.

(** The keys of the cube rows are triples. *)
Lemma cube_pairs_length (ms : list Measurement) :
  Forall (fun p : key * Z => List.length (fst p) = 3%nat)
         (map (fun m => (key3 (team_match_phase m), m_hit m)) ms).
Proof.
  apply Forall_forall. intros p Hin. apply in_map_iff in Hin.
  destruct Hin as [m [<- _]]. reflexivity.
Qed.

(** No group has a missing key. *)
Lemma cube_keys_complete (ms : list Measurement) :
  Forall (fun g => complete (fst g) = true)
         (sort_groups
            (group_sums
               (map (fun m => (key3 (team_match_phase m), m_hit m))
                    (cube_rows (present ms))))).
Proof.
  apply Forall_forall. intros [k v] Hin. apply groups_In in Hin.
  destruct Hin as [Hk _]. rewrite map_map in Hk. apply in_map_iff in Hk.
  destruct Hk as [m [<- Hm]]. unfold cube_rows, present in Hm.
  apply filter_In in Hm. destruct Hm as [Hm _].
  apply filter_In in Hm. exact (proj2 Hm).
Qed.

Lemma tuple3_group_rows (gs : list (key * Z)) :
  Forall (fun g => List.length (fst g) = 3%nat) gs ->
  map (tuple_of summary_columns ["team"; "match"; "phase"]) (map group_row gs) =
  map (map Some) (map fst gs).
Proof.
  intros H. rewrite !map_map. apply map_ext_in. intros [k v] Hin.
  rewrite Forall_forall in H. specialize (H _ Hin). simpl in H.
  destruct k as [|t [|m [|p [|]]]]; try discriminate. reflexivity.
Qed.

Lemma map_Some_inj {A} (a b : list A) : map Some a = map Some b -> a = b.
Proof.
  revert b. induction a as [|x a IH]; intros [|y b]; simpl; try congruence.
  intros H. inversion H. f_equal. now apply IH.
Qed.

(** C4.  On every raw measurement table the aggregator's output has no two
    rows with the same (team, match, phase) tuple. *)
Theorem get_cube_measures_unique_tuples (T : DataFrame) :
  raw_table T = true ->
  exists out,
    get_cube_measures T = Ok out
    /\ NoDup (map (tuple_of (columns out) ["team"; "match"; "phase"]) (data out)).
Proof.
  intros Hraw.
  destruct (raw_table_inv T Hraw) as (ms & _ & _ & _ & _ & _ & Hms & _).
  eexists. split; [apply (get_cube_measures_eq T ms Hraw Hms)|]. simpl.
  change ["team"; "match"; "phase"; "hit"] with summary_columns.
  rewrite tuple3_group_rows.
  - apply NoDup_map_inj; [apply map_Some_inj | apply groups_keys_NoDup].
  - apply groups_keys_length, cube_pairs_length.
Qed.

Lemma get_cube_measures_unique_tuples_witness :
  raw_table sample_raw = true
  /\ exists out,
       get_cube_measures sample_raw = Ok out
       /\ NoDup (map (tuple_of (columns out) ["team"; "match"; "phase"]) (data out)).
Proof.
  split; [reflexivity|].
  apply (get_cube_measures_unique_tuples sample_raw). reflexivity.
Defined.

(** C5, as amended.  On every raw measurement table the total of the [hit]
    column of the aggregator's output is the total of [hit] over the rows
    whose task starts with "cube" and whose team, match and phase are all
    present: as int64 totals always, and as exact sums whenever the counts
    are non-negative and their sum fits int64.  On a table without missing
    keys these are all the rows whose task starts with "cube". *)
Theorem get_cube_measures_preserves_total (T : DataFrame) :
  raw_table T = true ->
  exists out ms hits,
    get_cube_measures T = Ok out
    /\ measurements T = Some ms
    /\ hit_values out = Ok hits
    /\ hit_total out = Ok (Int64.sum (map m_hit (cube_rows (present ms))))
    /\ (Forall (fun m => 0 <= m_hit m) (cube_rows (present ms)) ->
        Zsum (map m_hit (cube_rows (present ms))) <= Int64.max_int ->
        Zsum hits = Zsum (map m_hit (cube_rows (present ms))))
    /\ (forallb has_keys ms = true ->
        hit_total out = Ok (Int64.sum (map m_hit (cube_rows ms)))).
Proof.
  intros Hraw.
  destruct (raw_table_inv T Hraw) as (ms & _ & _ & _ & _ & _ & Hms & _).
  eexists. exists ms. eexists.
  split; [apply (get_cube_measures_eq T ms Hraw Hms)|].
  split; [assumption|].
  set (pairs := map (fun m => (key3 (team_match_phase m), m_hit m))
                    (cube_rows (present ms))).
  assert (Hlen := groups_keys_length 3 pairs (cube_pairs_length _)).
  assert (Hvals : map snd pairs = map m_hit (cube_rows (present ms))).
  { unfold pairs. rewrite map_map. reflexivity. }
  assert (Htotal : hit_total
                     {| columns := summary_columns;
                        data := map group_row (sort_groups (group_sums pairs)) |}
                   = Ok (Int64.sum (map m_hit (cube_rows (present ms))))).
  { unfold hit_total, getitem, Pandas.sum. simpl.
    rewrite (take_group_rows 3 _ Hlen). simpl.
    rewrite (int64_values_Int snd). simpl.
    f_equal. rewrite !sum_wrap, <- Hvals. apply groups_total. }
  split; [|split; [exact Htotal|split]].
  - unfold hit_values, getitem. simpl.
    rewrite (take_group_rows 3 _ Hlen). simpl.
    apply (int64_values_Int snd).
  - intros Hpos Hmax. rewrite <- Hvals. apply groups_total_exact.
    + unfold pairs. apply Forall_map. exact Hpos.
    + now rewrite Hvals.
  - intros Hall. rewrite Htotal. now rewrite (present_all ms Hall).
Qed.

Lemma get_cube_measures_preserves_total_witness :
  raw_table sample_missing = true
  /\ exists out ms hits,
       get_cube_measures sample_missing = Ok out
       /\ measurements sample_missing = Some ms
       /\ hit_values out = Ok hits
       /\ hit_total out = Ok (Int64.sum (map m_hit (cube_rows (present ms))))
       /\ (Forall (fun m => 0 <= m_hit m) (cube_rows (present ms)) ->
           Zsum (map m_hit (cube_rows (present ms))) <= Int64.max_int ->
           Zsum hits = Zsum (map m_hit (cube_rows (present ms))))
       /\ (forallb has_keys ms = true ->
           hit_total out = Ok (Int64.sum (map m_hit (cube_rows ms)))).
Proof.
  split; [reflexivity|].
  apply (get_cube_measures_preserves_total sample_missing). reflexivity.
Defined.

(** C5 as it was stated fails on a raw table with a missing key: the cube
    rows of [sample_missing] total 3, the aggregate 1. *)
Lemma get_cube_measures_preserves_total_counterexample :
  raw_table sample_missing = true
  /\ ~ (exists out ms,
          get_cube_measures sample_missing = Ok out
          /\ measurements sample_missing = Some ms
          /\ hit_total out = Ok (Int64.sum (map m_hit (cube_rows ms)))).
Proof.
  split; [reflexivity|].
  intros (out & ms & Hout & Hms & Htotal).
  vm_compute in Hout, Hms. inversion Hout; subst out. inversion Hms; subst ms.
  vm_compute in Htotal. discriminate.
Qed.

Lemma groups_in_range (pairs : list (key * Z)) :
  Forall (fun g => Int64.in_range (snd g) = true) (sort_groups (group_sums pairs)).
Proof.
  apply Forall_forall. intros [k v] Hin. apply groups_In in Hin.
  destruct Hin as [_ ->]. apply wrap_in_range.
Qed.

Lemma group_rows_summaries (gs : list (key * Z)) :
  Forall (fun g => List.length (fst g) = 3%nat) gs ->
  Forall (fun g => Int64.in_range (snd g) = true) gs ->
  Forall (fun g => complete (fst g) = true) gs ->
  is_some (traverse summary_of (map group_row gs)) = true.
Proof.
  induction gs as [|[k v] gs IH]; intros Hlen Hval Hkeys; [reflexivity|].
  inversion Hlen as [|? ? Hk Hlen']; subst.
  inversion Hval as [|? ? Hv Hval']; subst.
  inversion Hkeys as [|? ? Hc Hkeys']; subst.
  simpl in Hk, Hv, Hc. specialize (IH Hlen' Hval' Hkeys').
  destruct k as [|t [|m [|p [|]]]]; try discriminate.
  simpl. rewrite Hv. simpl. unfold complete in Hc. simpl in Hc. unfold complete. simpl.
  rewrite Hc.
  destruct (traverse summary_of (map group_row gs)); [reflexivity | discriminate].
Qed.

(** The aggregator's output is a summary table: what the view filter is
    applied to. *)
Lemma get_cube_measures_summary_table (T : DataFrame) :
  raw_table T = true ->
  exists out, get_cube_measures T = Ok out /\ summary_table out = true.
Proof.
  intros Hraw.
  destruct (raw_table_inv T Hraw) as (ms & _ & _ & _ & _ & _ & Hms & _).
  eexists. split; [apply (get_cube_measures_eq T ms Hraw Hms)|].
  unfold summary_table, summaries. cbn [columns data].
  destruct (list_eq_dec string_dec summary_columns summary_columns); [|contradiction].
  apply group_rows_summaries.
  - apply groups_keys_length, cube_pairs_length.
  - apply groups_in_range.
  - apply cube_keys_complete.
Qed.





(** ** The view filter *)

Lemma summary_of_row (r : row) (s : Summary) :
  summary_of r = Some s ->
  r = summary_row s
  /\ Int64.in_range (s_hit s) = true
  /\ complete [s_team s; s_match s; s_phase s] = true.
Proof.
  unfold summary_of.
  destruct r as [|t [|m [|p [|[|h|] [|]]]]]; try discriminate.
  destruct (Int64.in_range h) eqn:Hr; [|discriminate].
  destruct (complete [t; m; p]) eqn:Hc; [|discriminate].
  intros H. inversion H; subst. repeat split; assumption.
Qed.

Lemma summary_table_inv (tbl : DataFrame) :
  summary_table tbl = true ->
  exists ss,
    summaries tbl = Some ss
    /\ tbl = summary_frame ss
    /\ Forall (fun s => Int64.in_range (s_hit s) = true) ss
    /\ Forall (fun s => complete [s_team s; s_match s; s_phase s] = true) ss.
Proof.
  unfold summary_table, summaries. destruct tbl as [cols rows]. simpl.
  destruct (list_eq_dec string_dec cols summary_columns) as [->|]; [|discriminate].
  simpl. destruct (traverse summary_of rows) as [ss|] eqn:Hss; [|discriminate].
  intros _. exists ss. apply traverse_Forall2 in Hss.
  split; [reflexivity|]. unfold summary_frame.
  induction Hss as [|r s rows ss Hr Hrows (IH1 & IH2 & IH3)];
    [repeat split; constructor|].
  apply summary_of_row in Hr. destruct Hr as (-> & Hrange & Hkeys).
  split; [|split; constructor; assumption].
  simpl. inversion IH1. congruence.
Qed.

Lemma eq_scalar_phase (v : string) (ss : list Summary) :
  eq_scalar (map s_phase ss) (Str v) =
  map Some (map (fun s => if cell_eq_dec (s_phase s) (Str v) then true else false) ss).
Proof.
  unfold eq_scalar. rewrite !map_map. apply map_ext. intros s. f_equal.
  destruct (cell_eq_dec (s_phase s) (Str v)) as [->|Hne].
  - simpl. apply String.eqb_refl.
  - destruct (s_phase s) as [t| |]; simpl; try reflexivity.
    destruct (String.eqb_spec t v); congruence.
Qed.

Lemma select_map {A} (keep : A -> bool) (f : A -> row) (l : list A) :
  select (map keep l) (map f l) = map f (filter keep l).
Proof.
  induction l as [|a l IH]; simpl; [reflexivity|].
  destruct (keep a); simpl; now rewrite IH.
Qed.

(** A recognised selector: the rows of that phase. *)
Lemma view_filter_phase (ss : list Summary) (selector v : string) :
  str_lower selector = v ->
  str_in v ["auto"; "tele"] = true ->
  view_filter (summary_frame ss) (PyStr selector) =
  Ok (summary_frame (spec_view_phase v ss)).
Proof.
  intros Hv Hin. unfold view_filter. cbn [Py.lower Py.bind]. rewrite Hv, Hin.
  unfold getattr. simpl.
  unfold take. rewrite (mapM_map _ summary_row s_phase) by reflexivity.
  cbn [Py.bind]. unfold loc. rewrite eq_scalar_phase, booleans_Some.
  cbn [data summary_frame]. rewrite !length_map, Nat.eqb_refl.
  unfold summary_frame, spec_view_phase. f_equal. f_equal.
  apply select_map.
Qed.

Lemma complete_team_match (t m p : cell) :
  complete [t; m; p] = true -> complete [t; m] = true.
Proof.
  unfold complete. simpl.
  destruct (is_missing t), (is_missing m); simpl; auto.
Qed.

Lemma filter_all {A} (f : A -> bool) (l : list A) :
  Forall (fun a => f a = true) l -> filter f l = l.
Proof.
  induction 1 as [|a l Ha Hl IH]; simpl; [reflexivity|].
  now rewrite Ha, IH.
Qed.

(** Any other selector: the totals per (team, match). *)
Lemma view_filter_all (ss : list Summary) (selector : string) :
  Forall (fun s => complete [s_team s; s_match s; s_phase s] = true) ss ->
  str_in (str_lower selector) ["auto"; "tele"] = false ->
  view_filter (summary_frame ss) (PyStr selector) =
  Ok {| columns := total_columns;
        data := map group_row
                  (sort_groups
                     (group_sums (map (fun s => (key2 (team_match s), s_hit s)) ss))) |}.
Proof.
  intros Hkeys Hin. unfold view_filter. cbn [Py.lower Py.bind]. rewrite Hin.
  unfold groupby_agg_sum. simpl.
  rewrite (mapM_map _ summary_row (fun s => (key2 (team_match s), Int (s_hit s))))
    by reflexivity.
  cbn [Py.bind].
  rewrite (int64_pairs_Int (fun s => key2 (team_match s)) s_hit).
  rewrite (dropna_map (fun s => key2 (team_match s)) s_hit).
  rewrite filter_all; [reflexivity|].
  eapply Forall_impl; [|exact Hkeys]. intros s. apply complete_team_match.
Qed.

Lemma str_in_auto_tele (v : string) :
  str_in v ["auto"; "tele"] = true <-> v = "auto" \/ v = "tele".
Proof.
  unfold str_in. simpl. rewrite !orb_true_iff, !String.eqb_eq.
  intuition discriminate.
Qed.

Lemma total_rows_of_groups (gs : list (cell * cell * Z)) :
  map group_row (map (fun g => (key2 (fst g), snd g)) gs) =
  map total_row (map (fun g => let '((t, m), h) := g in mkTotal t m h) gs).
Proof.
  rewrite !map_map. apply map_ext. intros [[t m] h]. reflexivity.
Qed.

Lemma rows_of_phase_summary_frame (ss : list Summary) (v : string) :
  rows_of_phase (summary_frame ss) v = map summary_row (spec_view_phase v ss).
Proof.
  unfold rows_of_phase, spec_view_phase, summary_frame. cbn [columns data].
  rewrite filter_map_commute. f_equal. apply filter_ext. intros s.
  unfold field. simpl.
  destruct (cell_eqb_spec (s_phase s) (Str v));
    destruct (cell_eq_dec (s_phase s) (Str v)); congruence.
Qed.

(** C2.  On a summary table, a selector that lower-cases to "auto" or "tele"
    makes the view filter return the columns unchanged (team, match, phase,
    hit) and exactly the rows whose phase is that lower-cased value, in their
    order. *)
Theorem view_filter_known_phase (tbl : DataFrame) (selector : string) :
  summary_table tbl = true ->
  str_lower selector = "auto" \/ str_lower selector = "tele" ->
  exists ss out,
    summaries tbl = Some ss
    /\ view_filter tbl (PyStr selector) = Ok out
    /\ columns out = columns tbl
    /\ columns out = ["team"; "match"; "phase"; "hit"]
    /\ data out = rows_of_phase tbl (str_lower selector)
    /\ data out = map summary_row (spec_view_phase (str_lower selector) ss).
Proof.
  intros Htbl Hsel.
  destruct (summary_table_inv tbl Htbl) as (ss & Hss & -> & _ & Hkeys).
  exists ss. eexists. split; [assumption|].
  split; [apply (view_filter_phase ss selector _ eq_refl), str_in_auto_tele, Hsel|].
  rewrite rows_of_phase_summary_frame. repeat split.
Qed.

Lemma view_filter_known_phase_witness :
  summary_table sample_summary = true
  /\ exists ss out,
       summaries sample_summary = Some ss
       /\ view_filter sample_summary (PyStr "Auto") = Ok out
       /\ columns out = columns sample_summary
       /\ columns out = ["team"; "match"; "phase"; "hit"]
       /\ data out = rows_of_phase sample_summary (str_lower "Auto")
       /\ data out = map summary_row (spec_view_phase (str_lower "Auto") ss).
Proof.
  split; [reflexivity|].
  apply (view_filter_known_phase sample_summary "Auto"); [reflexivity|].
  left. reflexivity.
Defined.

(** C3.  On a summary table, any selector string that lower-cases to neither
    "auto" nor "tele" makes the view filter return, without raising, the
    columns team, match, hit and, up to their order, the rows of the
    re-aggregation: the table grouped by (team, match) with [hit] summed
    across phases. *)
Theorem view_filter_other_selector (tbl : DataFrame) (selector : string) :
  summary_table tbl = true ->
  str_lower selector <> "auto" ->
  str_lower selector <> "tele" ->
  exists ss out,
    summaries tbl = Some ss
    /\ view_filter tbl (PyStr selector) = Ok out
    /\ columns out = ["team"; "match"; "hit"]
    /\ Permutation (data out) (map total_row (spec_view_all ss)).
Proof.
  intros Htbl Hauto Htele.
  destruct (summary_table_inv tbl Htbl) as (ss & Hss & -> & _ & Hkeys).
  exists ss. eexists. split; [assumption|]. split.
  - apply view_filter_all; [exact Hkeys|].
    destruct (str_in (str_lower selector) ["auto"; "tele"]) eqn:Hin; [|reflexivity].
    apply str_in_auto_tele in Hin. tauto.
  - split; [reflexivity|]. cbn [data].
    unfold spec_view_all. rewrite <- total_rows_of_groups.
    apply Permutation_map.
    apply (groups_refine cell2_eq_dec team_match s_hit key2 key2_inj).
Qed.

Lemma view_filter_other_selector_witness :
  summary_table sample_summary = true
  /\ exists ss out,
       summaries sample_summary = Some ss
       /\ view_filter sample_summary (PyStr "All") = Ok out
       /\ columns out = ["team"; "match"; "hit"]
       /\ Permutation (data out) (map total_row (spec_view_all ss)).
Proof.
  split; [reflexivity|].
  apply (view_filter_other_selector sample_summary "All"); [reflexivity | |];
    simpl; discriminate.
Defined.

(** ** Totals of the views *)

Lemma hit_total_summary_frame (ss : list Summary) :
  hit_total (summary_frame ss) = Ok (Int64.sum (map s_hit ss)).
Proof.
  unfold hit_total, getitem, Pandas.sum. simpl.
  unfold take. rewrite (mapM_map _ summary_row (fun s => Int (s_hit s))) by reflexivity.
  simpl. now rewrite (int64_values_Int s_hit).
Qed.

Lemma team_match_pairs_length (ss : list Summary) :
  Forall (fun p : key * Z => List.length (fst p) = 2%nat)
         (map (fun s => (key2 (team_match s), s_hit s)) ss).
Proof.
  apply Forall_forall. intros p Hin. apply in_map_iff in Hin.
  destruct Hin as [s [<- _]]. reflexivity.
Qed.

Lemma hit_total_all (ss : list Summary) :
  hit_total {| columns := total_columns;
               data := map group_row
                         (sort_groups
                            (group_sums
                               (map (fun s => (key2 (team_match s), s_hit s)) ss))) |}
  = Ok (Int64.sum (map s_hit ss)).
Proof.
  set (pairs := map (fun s => (key2 (team_match s), s_hit s)) ss).
  assert (Hlen := groups_keys_length 2 pairs (team_match_pairs_length _)).
  unfold hit_total, getitem, Pandas.sum. simpl.
  rewrite (take_group_rows 2 _ Hlen). simpl.
  rewrite (int64_values_Int snd). simpl.
  f_equal. rewrite !sum_wrap, groups_total. unfold pairs.
  now rewrite map_map.
Qed.

(** A table with only the two phases splits into its "auto" rows and its
    "tele" rows. *)
Lemma Zsum_auto_tele (ss : list Summary) :
  only_auto_tele ss = true ->
  Zsum (map s_hit ss) =
  Zsum (map s_hit (spec_view_phase "auto" ss))
  + Zsum (map s_hit (spec_view_phase "tele" ss)).
Proof.
  unfold only_auto_tele, spec_view_phase.
  induction ss as [|s ss IH]; simpl; [reflexivity|].
  rewrite andb_true_iff, orb_true_iff. intros [Hs Hss].
  specialize (IH Hss).
  destruct (cell_eq_dec (s_phase s) (Str "auto")) as [Ha|Ha];
    destruct (cell_eq_dec (s_phase s) (Str "tele")) as [Ht|Ht]; simpl.
  - congruence.
  - lia.
  - lia.
  - destruct Hs as [Hs|Hs];
      [destruct (cell_eqb_spec (s_phase s) (Str "auto"))
      |destruct (cell_eqb_spec (s_phase s) (Str "tele"))];
      congruence.
Qed.

Lemma filter_nonneg {A} (f : A -> Z) (keep : A -> bool) (l : list A) :
  Forall (fun a => 0 <= f a) l -> 0 <= Zsum (map f (filter keep l)).
Proof.
  intros H. apply Zsum_nonneg, Forall_map.
  apply Forall_forall. intros a Hin. apply filter_In in Hin.
  rewrite Forall_forall in H. now apply H.
Qed.

(** C6.  On a summary table whose phases are all "auto" or "tele", the total
    of [hit] in the view for "All" is the total in the view for "Auto" plus
    the total in the view for "Tele": with the int64 addition always, and
    with the exact one whenever the counts are non-negative and their sum
    fits int64. *)
Theorem view_filter_all_is_auto_plus_tele (tbl : DataFrame) (ss : list Summary) :
  summary_table tbl = true ->
  summaries tbl = Some ss ->
  only_auto_tele ss = true ->
  exists v_all v_auto v_tele a b c,
    view_filter tbl (PyStr "All") = Ok v_all
    /\ view_filter tbl (PyStr "Auto") = Ok v_auto
    /\ view_filter tbl (PyStr "Tele") = Ok v_tele
    /\ hit_total v_all = Ok a
    /\ hit_total v_auto = Ok b
    /\ hit_total v_tele = Ok c
    /\ a = Int64.add b c
    /\ (Forall (fun s => 0 <= s_hit s) ss ->
        Zsum (map s_hit ss) <= Int64.max_int ->
        a = b + c).
Proof.
  intros Htbl Hss Hphases.
  destruct (summary_table_inv tbl Htbl) as (ss' & Hss' & -> & _ & Hkeys).
  assert (ss' = ss) by congruence. subst ss'. clear Hss'.
  do 6 eexists.
  split; [apply view_filter_all; [exact Hkeys | reflexivity]|].
  split; [apply (view_filter_phase ss "Auto" "auto"); reflexivity|].
  split; [apply (view_filter_phase ss "Tele" "tele"); reflexivity|].
  split; [apply hit_total_all|].
  split; [apply hit_total_summary_frame|].
  split; [apply hit_total_summary_frame|].
  rewrite !sum_wrap, add_wrap, (Zsum_auto_tele ss Hphases).
  split; [reflexivity|].
  intros Hpos Hmax.
  assert (Ha := filter_nonneg s_hit
                  (fun s => if cell_eq_dec (s_phase s) (Str "auto") then true else false)
                  ss Hpos).
  assert (Ht := filter_nonneg s_hit
                  (fun s => if cell_eq_dec (s_phase s) (Str "tele") then true else false)
                  ss Hpos).
  fold (spec_view_phase "auto" ss) in Ha. fold (spec_view_phase "tele" ss) in Ht.
  unfold Int64.max_int in Hmax.
  rewrite !wrap_small; unfold Int64.min_int, Int64.max_int; lia.
Qed.

Lemma view_filter_all_is_auto_plus_tele_witness :
  exists v_all v_auto v_tele a b c,
    view_filter sample_summary (PyStr "All") = Ok v_all
    /\ view_filter sample_summary (PyStr "Auto") = Ok v_auto
    /\ view_filter sample_summary (PyStr "Tele") = Ok v_tele
    /\ hit_total v_all = Ok a
    /\ hit_total v_auto = Ok b
    /\ hit_total v_tele = Ok c
    /\ a = Int64.add b c
    /\ (Forall (fun s => 0 <= s_hit s)
          [mkSummary (Int 1) (Int 1) (Str "auto") 3;
           mkSummary (Int 1) (Int 1) (Str "tele") 2;
           mkSummary (Int 2) (Int 1) (Str "auto") 1] ->
        Zsum (map s_hit
                [mkSummary (Int 1) (Int 1) (Str "auto") 3;
                 mkSummary (Int 1) (Int 1) (Str "tele") 2;
                 mkSummary (Int 2) (Int 1) (Str "auto") 1]) <= Int64.max_int ->
        a = b + c).
Proof.
  apply (view_filter_all_is_auto_plus_tele sample_summary); reflexivity.
Defined.

(** The view filter sees its selector only through [str.lower]. *)
Lemma view_filter_lower (tbl : DataFrame) (s s' : string) :
  str_lower s = str_lower s' ->
  view_filter tbl (PyStr s) = view_filter tbl (PyStr s').
Proof.
  intros H. unfold view_filter. cbn [Py.lower Py.bind]. now rewrite H.
Qed.

(** C7.  On every summary table (indeed on every frame) the view filter
    gives the same result for the selectors "AUTO" and "auto". *)
Theorem view_filter_AUTO_auto (tbl : DataFrame) :
  view_filter tbl (PyStr "AUTO") = view_filter tbl (PyStr "auto").
Proof.
  apply view_filter_lower. reflexivity.
Qed.

(** C10.  A selector that is not a string makes the view filter, and with it
    [_build_cube_histogram], raise [AttributeError] at [phase.lower()]; no
    frame is computed and the store is left as it was. *)
Theorem view_filter_non_string_raises
  (tbl : DataFrame) (r : Store.ref) (st : Store.store) (v : value) :
  is_str v = false ->
  exists what,
    view_filter tbl v = Raise (AttributeError what)
    /\ _build_cube_histogram r v st = (Raise (AttributeError what), st).
Proof.
  destruct v as [|b|s]; simpl; intros H; try discriminate;
    eexists; split; reflexivity.
Qed.

Lemma view_filter_non_string_raises_witness :
  exists what,
    view_filter sample_summary PyNone = Raise (AttributeError what)
    /\ _build_cube_histogram 0%nat PyNone [Store.Frame sample_summary]
       = (Raise (AttributeError what), [Store.Frame sample_summary]).
Proof.
  apply (view_filter_non_string_raises sample_summary 0%nat
           [Store.Frame sample_summary] PyNone).
  reflexivity.
Defined.

(** ** The callback on the store *)

Lemma lookup_alloc (st : Store.store) (o : Store.object) :
  Store.lookup (st ++ [o]) (List.length st) = Some o.
Proof.
  unfold Store.lookup. rewrite nth_error_app2 by lia.
  now rewrite Nat.sub_diag.
Qed.

Lemma lookup_alloc2 (st : Store.store) (a b : Store.object) :
  Store.lookup (st ++ [a; b]) (S (List.length st)) = Some b.
Proof.
  unfold Store.lookup. rewrite nth_error_app2 by lia.
  replace (S (List.length st) - List.length st)%nat with 1%nat by lia.
  reflexivity.
Qed.

Lemma lookup_grow (st fresh : Store.store) (r : Store.ref) (o : Store.object) :
  Store.lookup st r = Some o -> Store.lookup (st ++ fresh) r = Some o.
Proof.
  unfold Store.lookup. intros H. rewrite nth_error_app1; [assumption|].
  apply nth_error_Some. congruence.
Qed.

Lemma replace_last (st : Store.store) (x o : Store.object) :
  Store.replace (List.length st) o (st ++ [x]) = st ++ [o].
Proof.
  induction st as [|y st IH]; simpl; [reflexivity | now rewrite IH].
Qed.

(** An update in place is seen through the reference: the store is not
    append-only by itself. *)
Lemma write_is_visible (st : Store.store) (r : Store.ref) (o o' : Store.object) :
  Store.lookup st r = Some o ->
  Store.lookup (snd (Store.write r o' st)) r = Some o'.
Proof.
  unfold Store.write, Store.lookup. intros H. rewrite H. cbn [snd].
  revert r H. induction st as [|x st IH]; intros [|r] H; simpl in *;
    try discriminate; [reflexivity | now apply IH].
Qed.

Lemma update_traces_fresh (st : Store.store) (fig : Plotly.Figure) (w : Z) (c : string) :
  Store.update_traces (List.length st) w c (st ++ [Store.Figure fig]) =
  (Ok (List.length st), st ++ [Store.Figure (Plotly.update_traces fig w c)]).
Proof.
  unfold Store.update_traces, Store.bind, Store.read_figure, Store.write, Store.ret.
  rewrite lookup_alloc, lookup_alloc, replace_last. reflexivity.
Qed.

Lemma update_layout_fresh (st : Store.store) (fig : Plotly.Figure) (t : string) :
  Store.update_layout (List.length st) t (st ++ [Store.Figure fig]) =
  (Ok (List.length st), st ++ [Store.Figure (Plotly.update_layout fig t)]).
Proof.
  unfold Store.update_layout, Store.bind, Store.read_figure, Store.write, Store.ret.
  rewrite lookup_alloc, lookup_alloc, replace_last. reflexivity.
Qed.

Lemma bind_run {A B} (m : Store.M A) (k : A -> Store.M B) (st : Store.store) :
  Store.bind m k st =
  match m st with
  | (Ok a, st') => k a st'
  | (Raise e, st') => (Raise e, st')
  end.
Proof. reflexivity. Qed.

Lemma histogram_fresh (st : Store.store) (df : DataFrame) (name title_ label : string) :
  Store.histogram (List.length st) name title_ label (st ++ [Store.Frame df]) =
  match Plotly.histogram df name title_ label with
  | Ok fig => (Ok (S (List.length st)), st ++ [Store.Frame df; Store.Figure fig])
  | Raise e => (Raise e, st ++ [Store.Frame df])
  end.
Proof.
  unfold Store.histogram. rewrite bind_run. unfold Store.read_frame.
  rewrite lookup_alloc. rewrite bind_run. unfold Store.lift, Store.alloc.
  destruct (Plotly.histogram df name title_ label) as [fig|e]; [|reflexivity].
  rewrite length_app, <- app_assoc. simpl. do 2 f_equal. lia.
Qed.

(** The figure part of [_build_cube_histogram]: the figure is allocated
    behind the filtered frame and the two updates land on it. *)
Lemma draw_run (st : Store.store) (filtered : DataFrame) (phase : value) :
  ((cube_hist <~ Store.histogram (List.length st) "hit"
                   ("Histogram of Cubes Placed Per Match: " ++ Py.format phase)%string
                   "Cubes Placed by a Team in a Single Match" ;;
    _ <~ Store.update_traces cube_hist 1 "lightgrey" ;;
    _ <~ Store.update_layout cube_hist "Count" ;;
    Store.ret cube_hist) (st ++ [Store.Frame filtered])) =
  match cube_hist filtered phase with
  | Raise e => (Raise e, st ++ [Store.Frame filtered])
  | Ok fig =>
      (Ok (S (List.length st)), st ++ [Store.Frame filtered; Store.Figure fig])
  end.
Proof.
  unfold cube_hist. rewrite bind_run, histogram_fresh.
  destruct (Plotly.histogram filtered "hit" _ _) as [fig|e]; [|reflexivity].
  cbn [Py.bind].
  assert (Hlen : List.length (st ++ [Store.Frame filtered]) = S (List.length st))
    by (rewrite length_app; simpl; lia).
  replace (st ++ [Store.Frame filtered; Store.Figure fig])
    with ((st ++ [Store.Frame filtered]) ++ [Store.Figure fig])
    by (now rewrite <- app_assoc).
  rewrite <- Hlen.
  rewrite bind_run, update_traces_fresh.
  rewrite bind_run, update_layout_fresh.
  unfold Store.ret. now rewrite <- app_assoc.
Qed.

(** One run of [_build_cube_histogram]: it reads the frame behind its
    argument, allocates the filtered frame, and allocates the figure drawn
    from it. *)
Lemma build_cube_histogram_run (r : Store.ref) (phase : value) (st : Store.store) :
  _build_cube_histogram r phase st =
  match Py.lower phase with
  | Raise e => (Raise e, st)
  | Ok _ =>
      match Store.lookup st r with
      | Some (Store.Frame df) =>
          match view_filter df phase with
          | Raise e => (Raise e, st)
          | Ok filtered =>
              match cube_hist filtered phase with
              | Raise e => (Raise e, st ++ [Store.Frame filtered])
              | Ok fig =>
                  (Ok (S (List.length st)),
                   st ++ [Store.Frame filtered; Store.Figure fig])
              end
          end
      | _ => (Raise (NotModelled "not a reference to a frame"), st)
      end
  end.
Proof.
  unfold _build_cube_histogram, view_filter.
  unfold Store.bind at 1. unfold Store.lift at 1.
  destruct (Py.lower phase) as [lowered|e]; [|reflexivity]. cbn [Py.bind].
  unfold Store.bind at 1.
  destruct (str_in lowered ["auto"; "tele"]).
  - unfold Store.getattr, Store.loc, Store.read_frame, Store.lift, Store.alloc.
    unfold Store.bind at 1 2 3 4 5 6.
    destruct (Store.lookup st r) as [[df|fig]|] eqn:Hdf; try reflexivity.
    destruct (getattr df "phase") as [column|e]; [|reflexivity].
    cbn [Py.bind]. rewrite Hdf.
    destruct (loc df (eq_scalar column (Str lowered))) as [filtered|e]; [|reflexivity].
    apply draw_run.
  - unfold Store.groupby_agg_sum, Store.read_frame, Store.lift, Store.alloc.
    unfold Store.bind at 1 2.
    destruct (Store.lookup st r) as [[df|fig]|] eqn:Hdf; try reflexivity.
    destruct (groupby_agg_sum df ["team"; "match"] "hit") as [filtered|e]; [|reflexivity].
    apply draw_run.
Qed.

(** C9.  A run of [_build_cube_histogram], which rebinds its local name and
    updates its figure in place, leaves every object that was in the store
    before it as it was: the frame behind its argument, like every other
    object, is afterwards what it was before; the only objects written are
    the ones the run itself allocated.  A second run with the same arguments
    returns an object equal to the one the first run returned, and leaves
    the object the first run returned as it was. *)
Theorem build_cube_histogram_frame (r : Store.ref) (phase : value) (st : Store.store) :
  let run := _build_cube_histogram r phase st in
  let again := _build_cube_histogram r phase (snd run) in
  (exists fresh, snd run = st ++ fresh)
  /\ Store.lookup (snd run) r = Store.lookup st r
  /\ (forall r' o, Store.lookup st r' = Some o -> Store.lookup (snd run) r' = Some o)
  /\ Store.deref (snd again) (fst again) = Store.deref (snd run) (fst run)
  /\ Store.deref (snd again) (fst run) = Store.deref (snd run) (fst run).
Proof.
  cbv zeta. rewrite (build_cube_histogram_run r phase st).
  destruct (Py.lower phase) as [lowered|e] eqn:Hlow.
  2:{ cbn [fst snd]. rewrite build_cube_histogram_run, Hlow.
      repeat split; auto. exists []. now rewrite app_nil_r. }
  destruct (Store.lookup st r) as [[df|fig]|] eqn:Hdf.
  2,3: cbn [fst snd]; rewrite build_cube_histogram_run, Hlow, Hdf;
       repeat split; auto; exists []; now rewrite app_nil_r.
  destruct (view_filter df phase) as [filtered|e] eqn:Hview.
  2:{ cbn [fst snd]. rewrite build_cube_histogram_run, Hlow, Hdf, Hview.
      repeat split; auto. exists []. now rewrite app_nil_r. }
  destruct (cube_hist filtered phase) as [fig|e] eqn:Hfig; cbn [fst snd].
  - rewrite build_cube_histogram_run, Hlow.
    rewrite (lookup_grow st _ r _ Hdf), Hview, Hfig. cbn [fst snd Store.deref].
    repeat split.
    + now eexists.
    + intros r' o. apply lookup_grow.
    + now rewrite !lookup_alloc2.
    + f_equal. rewrite (lookup_alloc2 st).
      apply lookup_grow, lookup_alloc2.
  - rewrite build_cube_histogram_run, Hlow.
    rewrite (lookup_grow st _ r _ Hdf), Hview, Hfig. cbn [fst snd Store.deref].
    repeat split.
    + now eexists.
    + intros r' o. apply lookup_grow.
Qed.

Lemma build_cube_histogram_frame_witness :
  let st := [Store.Frame sample_summary] in
  let run := _build_cube_histogram 0%nat (PyStr "Auto") st in
  let again := _build_cube_histogram 0%nat (PyStr "Auto") (snd run) in
  (exists fresh, snd run = st ++ fresh)
  /\ Store.lookup (snd run) 0%nat = Store.lookup st 0%nat
  /\ (forall r' o, Store.lookup st r' = Some o -> Store.lookup (snd run) r' = Some o)
  /\ Store.deref (snd again) (fst again) = Store.deref (snd run) (fst run)
  /\ Store.deref (snd again) (fst run) = Store.deref (snd run) (fst run).
Proof.
  apply (build_cube_histogram_frame 0%nat (PyStr "Auto") [Store.Frame sample_summary]).
Defined.

(** The figures for "AUTO" and "auto" are drawn from the same data; only the
    title, which quotes the selector as it was given, tells them apart. *)
Lemma build_cube_histogram_title_quotes_selector (r : Store.ref) (st : Store.store)
      (fig fig' : Plotly.Figure) :
  let upper := _build_cube_histogram r (PyStr "AUTO") st in
  let lower := _build_cube_histogram r (PyStr "auto") st in
  Store.deref (snd upper) (fst upper) = Ok (Some (Store.Figure fig)) ->
  Store.deref (snd lower) (fst lower) = Ok (Some (Store.Figure fig')) ->
  Plotly.x fig = Plotly.x fig'
  /\ Plotly.title fig = "Histogram of Cubes Placed Per Match: AUTO"
  /\ Plotly.title fig' = "Histogram of Cubes Placed Per Match: auto".
Proof.
  cbv zeta. rewrite !build_cube_histogram_run. cbn [Py.lower].
  destruct (Store.lookup st r) as [[df|g]|]; try discriminate.
  rewrite (view_filter_lower df "AUTO" "auto" eq_refl).
  destruct (view_filter df (PyStr "auto")) as [filtered|]; [|discriminate].
  unfold cube_hist, Plotly.histogram.
  destruct (get_loc "hit" (columns filtered)) as [i|]; [|discriminate].
  destruct (take i (data filtered)) as [xs|]; [|discriminate].
  cbn [Py.bind of_option fst snd Store.deref]. rewrite !lookup_alloc2.
  intros H H'. inversion H. inversion H'. repeat split.
Qed.

(** ** The scenarios of the specification, run *)

Example view_filter_sample_auto :
  view_filter sample_summary (PyStr "Auto") =
  Ok {| columns := ["team"; "match"; "phase"; "hit"];
        data := [ [Int 1; Int 1; Str "auto"; Int 3];
                  [Int 2; Int 1; Str "auto"; Int 1] ] |}.
Proof. reflexivity. Qed.

Example view_filter_sample_all :
  view_filter sample_summary (PyStr "All") =
  Ok {| columns := ["team"; "match"; "hit"];
        data := [ [Int 1; Int 1; Int 5];
                  [Int 2; Int 1; Int 1] ] |}.
Proof. reflexivity. Qed.

Example view_filter_sample_empty_selector :
  view_filter sample_summary (PyStr "") = view_filter sample_summary (PyStr "All").
Proof. reflexivity. Qed.

Example get_cube_measures_sample :
  get_cube_measures sample_raw =
  Ok {| columns := ["team"; "match"; "phase"; "hit"];
        data := [ [Str "frc1318"; Str "qm1"; Str "auto"; Int 1];
                  [Str "frc1318"; Str "qm1"; Str "tele"; Int 3];
                  [Str "frc1318"; Str "qm2"; Str "tele"; Int 2];
                  [Str "frc2910"; Str "qm1"; Str "tele"; Int 4] ] |}.
Proof. reflexivity. Qed.

(** int64 totals wrap around: two rows of one group whose counts sum to
    2^63 are totalled to -2^63. *)
Example get_cube_measures_wraps :
  get_cube_measures
    {| columns := ["team"; "match"; "phase"; "task"; "hit"];
       data := [ [Int 1; Int 1; Str "auto"; Str "cube_a"; Int (2 ^ 63 - 1)];
                 [Int 1; Int 1; Str "auto"; Str "cube_b"; Int 1] ] |} =
  Ok {| columns := ["team"; "match"; "phase"; "hit"];
        data := [ [Int 1; Int 1; Str "auto"; Int (- 2 ^ 63)] ] |}.
Proof. reflexivity. Qed.

(** A row whose team is missing falls out of the grouping, with its count. *)
Example get_cube_measures_sample_missing :
  exists out,
    get_cube_measures sample_missing = Ok out
    /\ List.length (data out) = 1%nat
    /\ hit_total out = Ok 1.
Proof. eexists. split; [reflexivity|]. split; reflexivity. Qed.

(** A task column with a missing value cannot be used as a mask. *)
Example get_cube_measures_missing_task :
  get_cube_measures
    {| columns := ["team"; "match"; "phase"; "task"; "hit"];
       data := [ [Int 1; Int 1; Str "auto"; Str "cube_a"; Int 1];
                 [Int 1; Int 1; Str "auto"; NaN; Int 1] ] |} =
  Raise (ValueError "Cannot mask with non-boolean array containing NA / NaN values").
Proof. reflexivity. Qed.

(** A text [hit] column is summed by concatenation. *)
Example get_cube_measures_text_hit :
  get_cube_measures
    {| columns := ["team"; "match"; "phase"; "task"; "hit"];
       data := [ [Int 1; Int 1; Str "auto"; Str "cube_a"; Str "a"];
                 [Int 1; Int 1; Str "auto"; Str "cube_b"; Str "b"] ] |} =
  Ok {| columns := ["team"; "match"; "phase"; "hit"];
        data := [ [Int 1; Int 1; Str "auto"; Str "ab"] ] |}.
Proof. reflexivity. Qed.

(** * The rest of the module *)

(** ** The order of group keys *)

Lemma ascii_compare_refl (a : ascii) : Ascii.compare a a = Eq.
Proof.
  unfold Ascii.compare. apply N.compare_refl.
Qed.

Lemma ascii_compare_trans (a b c : ascii) :
  Ascii.compare a b = Lt -> Ascii.compare b c = Lt -> Ascii.compare a c = Lt.
Proof.
  unfold Ascii.compare. rewrite !N.compare_lt_iff. apply N.lt_trans.
Qed.

Lemma string_compare_refl (s : string) : String.compare s s = Eq.
Proof.
  induction s as [|a s IH]; simpl; [reflexivity|].
  now rewrite ascii_compare_refl.
Qed.

Lemma string_compare_trans (s t u : string) :
  String.compare s t = Lt -> String.compare t u = Lt -> String.compare s u = Lt.
Proof.
  revert t u. induction s as [|a s IH]; intros [|b t] [|c u]; simpl;
    try congruence.
  destruct (Ascii.compare a b) eqn:Hab; try discriminate;
    destruct (Ascii.compare b c) eqn:Hbc; try discriminate; intros Hst Htu.
  - apply Ascii.compare_eq_iff in Hab, Hbc. subst.
    rewrite ascii_compare_refl. now apply (IH t).
  - apply Ascii.compare_eq_iff in Hab. subst. now rewrite Hbc.
  - apply Ascii.compare_eq_iff in Hbc. subst. now rewrite Hab.
  - now rewrite (ascii_compare_trans _ _ _ Hab Hbc).
Qed.

Lemma cell_compare_refl (a : cell) : cell_compare a a = Eq.
Proof.
  destruct a; simpl;
    [apply string_compare_refl | apply Z.compare_refl | reflexivity].
Qed.

Lemma cell_compare_eq (a b : cell) : cell_compare a b = Eq -> a = b.
Proof.
  destruct a, b; simpl; try discriminate; intros H.
  - f_equal. now apply String.compare_eq_iff.
  - f_equal. now apply Z.compare_eq.
  - reflexivity.
Qed.

Lemma cell_compare_antisym (a b : cell) :
  cell_compare a b = CompOpp (cell_compare b a).
Proof.
  destruct a, b; simpl; try reflexivity.
  - apply String.compare_antisym.
  - apply Z.compare_antisym.
Qed.

Lemma cell_compare_trans (a b c : cell) :
  cell_compare a b = Lt -> cell_compare b c = Lt -> cell_compare a c = Lt.
Proof.
  destruct a, b, c; simpl; try congruence.
  - apply string_compare_trans.
  - rewrite !Z.compare_lt_iff. apply Z.lt_trans.
Qed.

Lemma key_compare_refl (a : key) : key_compare a a = Eq.
Proof.
  induction a as [|x a IH]; simpl; [reflexivity|].
  now rewrite cell_compare_refl.
Qed.

Lemma key_compare_eq (a b : key) : key_compare a b = Eq -> a = b.
Proof.
  revert b. induction a as [|x a IH]; intros [|y b]; simpl; try discriminate.
  - reflexivity.
  - destruct (cell_compare x y) eqn:Hxy; try discriminate.
    intros H. apply cell_compare_eq in Hxy. subst. f_equal. now apply IH.
Qed.

Lemma key_compare_antisym (a b : key) :
  key_compare a b = CompOpp (key_compare b a).
Proof.
  revert b. induction a as [|x a IH]; intros [|y b]; simpl; try reflexivity.
  rewrite (cell_compare_antisym x y).
  destruct (cell_compare y x); simpl; [apply IH | reflexivity | reflexivity].
Qed.

Lemma key_lt_trans (a b c : key) : key_lt a b -> key_lt b c -> key_lt a c.
Proof.
  unfold key_lt. revert b c.
  induction a as [|x a IH]; intros [|y b] [|z c]; simpl; try congruence.
  destruct (cell_compare x y) eqn:Hxy; try discriminate;
    destruct (cell_compare y z) eqn:Hyz; try discriminate; intros Hab Hbc.
  - apply cell_compare_eq in Hxy, Hyz. subst.
    rewrite cell_compare_refl. now apply (IH b).
  - apply cell_compare_eq in Hxy. subst. now rewrite Hyz.
  - apply cell_compare_eq in Hyz. subst. now rewrite Hxy.
  - now rewrite (cell_compare_trans _ _ _ Hxy Hyz).
Qed.

Lemma key_lt_irrefl (a : key) : ~ key_lt a a.
Proof.
  unfold key_lt. now rewrite key_compare_refl.
Qed.

Lemma key_compare_Gt (a b : key) : key_compare a b = Gt -> key_lt b a.
Proof.
  unfold key_lt. rewrite (key_compare_antisym b a). now intros ->.
Qed.

(** ** Sorted groups *)

Lemma insert_group_sorted (g : key * Z) (gs : list (key * Z)) :
  ~ In (fst g) (map fst gs) ->
  Sorted group_lt gs -> Sorted group_lt (insert_group g gs).
Proof.
  intros Hnew Hs. induction Hs as [|h gs Hgs IH Hhd]; simpl.
  - repeat constructor.
  - simpl in Hnew.
    destruct (key_compare (fst g) (fst h)) eqn:Hc.
    + apply key_compare_eq in Hc. exfalso. apply Hnew. left. now symmetry.
    + repeat constructor; assumption.
    + constructor; [apply IH; tauto|].
      apply key_compare_Gt in Hc.
      destruct gs as [|h' gs']; simpl; [now constructor|].
      destruct (key_compare (fst g) (fst h')); constructor;
        try assumption; now inversion Hhd.
Qed.

Lemma sort_groups_sorted (gs : list (key * Z)) :
  NoDup (map fst gs) -> StronglySorted group_lt (sort_groups gs).
Proof.
  intros Hnd. apply Sorted_StronglySorted.
  - intros a b c. apply key_lt_trans.
  - induction gs as [|g gs IH]; simpl; [constructor|].
    inversion Hnd as [|? ? Hg Hnd']; subst.
    apply insert_group_sorted; [|now apply IH].
    intros Hin. apply Hg.
    eapply Permutation_in; [|exact Hin].
    apply Permutation_map, sort_groups_perm.
Qed.

(** A strictly sorted list is determined by its elements. *)
Lemma sorted_perm_eq (l l' : list (key * Z)) :
  StronglySorted group_lt l -> StronglySorted group_lt l' ->
  Permutation l l' -> l = l'.
Proof.
  intros Hl. revert l'. induction Hl as [|g l Hl IH Hg]; intros l' Hl' Hperm.
  - now apply Permutation_nil in Hperm.
  - destruct Hl' as [|g' l' Hl' Hg'].
    + symmetry in Hperm. now apply Permutation_nil in Hperm.
    + assert (g = g').
      { assert (Hin : In g (g' :: l')) by (eapply Permutation_in; [exact Hperm | now left]).
        assert (Hin' : In g' (g :: l))
          by (eapply Permutation_in; [symmetry; exact Hperm | now left]).
        destruct Hin as [->|Hin]; [reflexivity|].
        destruct Hin' as [->|Hin']; [reflexivity|].
        rewrite Forall_forall in Hg, Hg'.
        exfalso. apply (key_lt_irrefl (fst g)).
        apply (key_lt_trans _ (fst g')); [now apply Hg | now apply Hg']. }
      subst g'. f_equal. apply IH; [assumption|].
      now apply Permutation_cons_inv in Hperm.
Qed.

(** [sort=True]: the groups come out in strictly ascending key order. *)
Lemma groups_sorted (pairs : list (key * Z)) :
  StronglySorted group_lt (sort_groups (group_sums pairs)).
Proof.
  apply sort_groups_sorted. rewrite group_sums_wrap, map_fst_wrap_total.
  apply keys_group_sums_exact.
Qed.

Lemma key_sum_perm (k : key) (pairs pairs' : list (key * Z)) :
  Permutation pairs pairs' -> key_sum k pairs = key_sum k pairs'.
Proof.
  intros H. unfold key_sum. apply Zsum_perm, Permutation_map, filter_perm, H.
Qed.

(** The groups do not depend on the order of the rows. *)
Lemma groups_perm_eq (pairs pairs' : list (key * Z)) :
  Permutation pairs pairs' ->
  sort_groups (group_sums pairs) = sort_groups (group_sums pairs').
Proof.
  intros H. apply sorted_perm_eq; try apply groups_sorted.
  apply NoDup_Permutation.
  - apply (NoDup_map_inv fst), groups_keys_NoDup.
  - apply (NoDup_map_inv fst), groups_keys_NoDup.
  - intros [k v]. rewrite !groups_In, (key_sum_perm k _ _ H).
    split; intros [Hin Hv]; (split; [|assumption]).
    + eapply Permutation_in; [|exact Hin]. now apply Permutation_map.
    + eapply Permutation_in; [|exact Hin]. apply Permutation_map. now symmetry.
Qed.

Lemma firstn_group_row (g : key * Z) :
  firstn (List.length (fst g)) (group_row g) = fst g.
Proof.
  unfold group_row. rewrite firstn_app, Nat.sub_diag, firstn_all. simpl.
  apply app_nil_r.
Qed.

Lemma ascending_group_rows (n : nat) (gs : list (key * Z)) :
  Forall (fun g => List.length (fst g) = n) gs ->
  StronglySorted group_lt gs -> ascending n (map group_row gs).
Proof.
  intros Hlen Hs. unfold ascending.
  induction Hs as [|g gs Hgs IH Hg]; simpl; [constructor|].
  inversion Hlen as [|? ? Hn Hlen']; subst.
  constructor; [now apply IH|].
  apply Forall_map. rewrite Forall_forall in *. intros h Hh.
  rewrite <- (Hlen' h Hh) at 2. rewrite !firstn_group_row.
  now apply Hg.
Qed.

(** X1.  The aggregator returns its rows in strictly ascending order of
    (team, match, phase): the default [sort=True] of [groupby]. *)
Theorem get_cube_measures_ascending (T : DataFrame) :
  raw_table T = true ->
  exists out, get_cube_measures T = Ok out /\ ascending 3 (data out).
Proof.
  intros Hraw.
  destruct (raw_table_inv T Hraw) as (ms & _ & _ & _ & _ & _ & Hms & _).
  eexists. split; [apply (get_cube_measures_eq T ms Hraw Hms)|]. cbn [data].
  apply ascending_group_rows; [|apply groups_sorted].
  apply groups_keys_length, cube_pairs_length.
Qed.

Lemma get_cube_measures_ascending_witness :
  raw_table sample_raw = true
  /\ exists out, get_cube_measures sample_raw = Ok out /\ ascending 3 (data out).
Proof.
  split; [reflexivity|].
  apply (get_cube_measures_ascending sample_raw). reflexivity.
Defined.

Lemma traverse_perm {A B} (f : A -> option B) (l l' : list A) (ms : list B) :
  Permutation l l' ->
  traverse f l = Some ms ->
  exists ms', traverse f l' = Some ms' /\ Permutation ms ms'.
Proof.
  intros H. revert ms.
  induction H as [|a l l' H IH|a b l|l l' l'' H1 IH1 H2 IH2]; intros ms; simpl.
  - intros Hms. exists ms. split; [assumption | reflexivity].
  - destruct (f a) as [x|]; [|discriminate].
    destruct (traverse f l) as [xs|]; [|discriminate].
    intros Hms. inversion Hms; subst.
    destruct (IH xs eq_refl) as (xs' & -> & Hp).
    exists (x :: xs'). split; [reflexivity | now constructor].
  - destruct (f b) as [y|]; [|discriminate].
    destruct (f a) as [x|]; [|discriminate].
    destruct (traverse f l) as [xs|]; [|discriminate].
    intros Hms. inversion Hms; subst.
    exists (x :: y :: xs). split; [reflexivity | apply perm_swap].
  - intros Hms. destruct (IH1 ms Hms) as (ms' & Hms' & Hp).
    destruct (IH2 ms' Hms') as (ms'' & Hms'' & Hp').
    exists ms''. split; [assumption | now transitivity ms'].
Qed.

Lemma forallb_perm {A} (f : A -> bool) (l l' : list A) :
  Permutation l l' -> forallb f l = true -> forallb f l' = true.
Proof.
  intros H. rewrite !forallb_forall. intros Hl a Ha. apply Hl.
  eapply Permutation_in; [symmetry; exact H | exact Ha].
Qed.

(** X2.  The aggregate does not depend on the order of the rows of the raw
    table: the same rows in another order give the same frame, row for
    row. *)
Theorem get_cube_measures_row_order (T T' : DataFrame) :
  raw_table T = true ->
  columns T' = columns T ->
  Permutation (data T) (data T') ->
  get_cube_measures T' = get_cube_measures T.
Proof.
  intros Hraw Hcols Hperm.
  destruct (raw_table_inv T Hraw) as (ms & _ & _ & _ & _ & _ & Hms & _).
  destruct (traverse_perm _ _ _ ms Hperm Hms) as (ms' & Hms' & Hp).
  assert (Hraw' : raw_table T' = true).
  { unfold raw_table, wf_frame, measurements in *. rewrite Hcols.
    rewrite !andb_true_iff in *.
    destruct Hraw as [[[Hd Hrows] Hnames] _].
    rewrite Hms'. repeat split; try assumption.
    eapply forallb_perm; eassumption. }
  assert (Hms'' : measurements T' = Some ms').
  { unfold measurements. now rewrite Hcols. }
  rewrite (get_cube_measures_eq T ms Hraw Hms),
    (get_cube_measures_eq T' ms' Hraw' Hms'').
  do 3 f_equal. apply groups_perm_eq, Permutation_map.
  unfold cube_rows, present. do 2 apply filter_perm. now symmetry.
Qed.

Lemma get_cube_measures_row_order_witness :
  get_cube_measures
    {| columns := columns sample_raw; data := rev (data sample_raw) |}
  = get_cube_measures sample_raw.
Proof.
  apply (get_cube_measures_row_order sample_raw).
  - reflexivity.
  - reflexivity.
  - apply Permutation_rev.
Defined.


(** ** The views, applied again *)

Lemma key_sum_single (gs : list (key * Z)) (k : key) (v : Z) :
  NoDup (map fst gs) -> In (k, v) gs -> key_sum k gs = v.
Proof.
  unfold key_sum. induction gs as [|[k0 v0] gs IH]; simpl; [tauto|].
  intros Hnd Hin. inversion Hnd as [|? ? Hk0 Hnd']; subst.
  destruct Hin as [Heq|Hin].
  - inversion Heq; subst. rewrite key_eqb_refl. simpl.
    fold (key_sum k gs). rewrite key_sum_absent by assumption. lia.
  - destruct (key_eqb_spec k0 k) as [->|Hne].
    + exfalso. apply Hk0. change k with (fst (k, v)). now apply in_map.
    + now apply IH.
Qed.

(** Grouping a table that is already grouped changes nothing. *)
Lemma regroup_fixed (gs : list (key * Z)) :
  StronglySorted group_lt gs ->
  NoDup (map fst gs) ->
  Forall (fun g => Int64.in_range (snd g) = true) gs ->
  sort_groups (group_sums gs) = gs.
Proof.
  intros Hs Hnd Hr. apply sorted_perm_eq; [apply groups_sorted | assumption |].
  apply NoDup_Permutation.
  - apply (NoDup_map_inv fst), groups_keys_NoDup.
  - now apply (NoDup_map_inv fst).
  - intros [k v]. rewrite groups_In. rewrite Forall_forall in Hr. split.
    + intros [Hin ->]. apply in_map_iff in Hin. destruct Hin as [[k0 v0] [Hk Hin]].
      simpl in Hk. subst k0. rewrite (key_sum_single gs k v0 Hnd Hin).
      rewrite wrap_small; [assumption|].
      apply in_range_spec. exact (Hr _ Hin).
    + intros Hin. split.
      * change k with (fst (k, v)). now apply in_map.
      * rewrite (key_sum_single gs k v Hnd Hin).
        symmetry. apply wrap_small, in_range_spec. exact (Hr _ Hin).
Qed.

Lemma groups_keys_complete (pairs : list (key * Z)) :
  Forall (fun p => complete (fst p) = true) pairs ->
  Forall (fun g => complete (fst g) = true) (sort_groups (group_sums pairs)).
Proof.
  intros H. apply Forall_forall. intros [k v] Hin. apply groups_In in Hin.
  destruct Hin as [Hk _]. apply in_map_iff in Hk. destruct Hk as [p [<- Hp]].
  rewrite Forall_forall in H. cbn [fst]. now apply H.
Qed.

Lemma key_value_group_row2 (g : key * Z) :
  List.length (fst g) = 2%nat ->
  key_value [0%nat; 1%nat] 2 (group_row g) = Ok (fst g, Int (snd g)).
Proof.
  destruct g as [[|t [|m [|]]] v]; try discriminate. reflexivity.
Qed.

Lemma tuple2_group_rows (gs : list (key * Z)) :
  Forall (fun g => List.length (fst g) = 2%nat) gs ->
  map (tuple_of total_columns ["team"; "match"]) (map group_row gs) =
  map (map Some) (map fst gs).
Proof.
  intros H. rewrite !map_map. apply map_ext_in. intros [k v] Hin.
  rewrite Forall_forall in H. specialize (H _ Hin). simpl in H.
  destruct k as [|t [|m [|]]]; try discriminate. reflexivity.
Qed.

Lemma other_selector (selector : string) :
  str_lower selector <> "auto" -> str_lower selector <> "tele" ->
  str_in (str_lower selector) ["auto"; "tele"] = false.
Proof.
  intros Ha Ht.
  destruct (str_in (str_lower selector) ["auto"; "tele"]) eqn:Hin; [|reflexivity].
  apply str_in_auto_tele in Hin. tauto.
Qed.

(** X3.  The "All" view of a summary table comes out in strictly ascending
    order of (team, match) and has no two rows for one (team, match). *)
Theorem view_filter_all_ascending (tbl : DataFrame) (selector : string) :
  summary_table tbl = true ->
  str_lower selector <> "auto" ->
  str_lower selector <> "tele" ->
  exists out,
    view_filter tbl (PyStr selector) = Ok out
    /\ ascending 2 (data out)
    /\ NoDup (map (tuple_of (columns out) ["team"; "match"]) (data out)).
Proof.
  intros Htbl Ha Ht.
  destruct (summary_table_inv tbl Htbl) as (ss & _ & -> & _ & Hkeys).
  eexists. split; [apply (view_filter_all ss selector Hkeys), other_selector; assumption|].
  cbn [data columns].
  assert (Hlen := groups_keys_length 2 _ (team_match_pairs_length ss)).
  split.
  - apply ascending_group_rows; [assumption | apply groups_sorted].
  - rewrite tuple2_group_rows by assumption.
    apply NoDup_map_inj; [apply map_Some_inj | apply groups_keys_NoDup].
Qed.

Lemma view_filter_all_ascending_witness :
  exists out,
    view_filter sample_summary (PyStr "All") = Ok out
    /\ ascending 2 (data out)
    /\ NoDup (map (tuple_of (columns out) ["team"; "match"]) (data out)).
Proof.
  apply (view_filter_all_ascending sample_summary "All").
  - reflexivity.
  - simpl. discriminate.
  - simpl. discriminate.
Defined.

(** X4.  The "All" view can be fed back to the view filter: any selector
    that is not a phase returns it unchanged, and a phase selector raises
    [AttributeError], the view having no [phase] column. *)
Theorem view_filter_all_again (tbl : DataFrame) (selector again : string) :
  summary_table tbl = true ->
  str_in (str_lower selector) ["auto"; "tele"] = false ->
  exists out,
    view_filter tbl (PyStr selector) = Ok out
    /\ (str_in (str_lower again) ["auto"; "tele"] = false ->
        view_filter out (PyStr again) = Ok out)
    /\ (str_in (str_lower again) ["auto"; "tele"] = true ->
        view_filter out (PyStr again) =
        Raise (AttributeError "'DataFrame' object has no attribute 'phase'")).
Proof.
  intros Htbl Hsel.
  destruct (summary_table_inv tbl Htbl) as (ss & _ & -> & _ & Hkeys).
  eexists. split; [apply (view_filter_all ss selector Hkeys), Hsel|].
  set (gs := sort_groups (group_sums (map (fun s => (key2 (team_match s), s_hit s)) ss))).
  assert (Hlen : Forall (fun g => List.length (fst g) = 2%nat) gs)
    by apply groups_keys_length, team_match_pairs_length.
  assert (Hcomplete : Forall (fun g => complete (fst g) = true) gs).
  { apply groups_keys_complete, Forall_forall. intros p Hp.
    apply in_map_iff in Hp. destruct Hp as [s [<- Hs]].
    rewrite Forall_forall in Hkeys. cbn [fst]. unfold key2, team_match.
    apply (complete_team_match _ _ (s_phase s)), Hkeys, Hs. }
  split; intros Hagain; unfold view_filter; cbn [Py.lower Py.bind]; rewrite Hagain.
  - unfold groupby_agg_sum. simpl.
    rewrite (mapM_map _ group_row (fun g => (fst g, Int (snd g)))).
    + cbn [Py.bind].
      rewrite (int64_pairs_Int (fun g : key * Z => fst g) (fun g => snd g)).
      rewrite (dropna_map (fun g : key * Z => fst g) (fun g : key * Z => snd g)).
      rewrite (filter_all _ gs Hcomplete).
      replace (map (fun a : key * Z => (fst a, snd a)) gs) with gs
        by (rewrite <- (map_id gs) at 1; apply map_ext; now intros []).
      unfold total_columns. do 3 f_equal.
      apply regroup_fixed;
        [apply groups_sorted | apply groups_keys_NoDup | apply groups_in_range].
    + intros g Hg. rewrite Forall_forall in Hlen.
      apply key_value_group_row2, Hlen, Hg.
  - reflexivity.
Qed.

Lemma view_filter_all_again_witness :
  exists out,
    view_filter sample_summary (PyStr "All") = Ok out
    /\ (str_in (str_lower "") ["auto"; "tele"] = false ->
        view_filter out (PyStr "") = Ok out)
    /\ (str_in (str_lower "") ["auto"; "tele"] = true ->
        view_filter out (PyStr "") =
        Raise (AttributeError "'DataFrame' object has no attribute 'phase'")).
Proof.
  apply (view_filter_all_again sample_summary "All" ""); reflexivity.
Defined.

Lemma filter_filter_same {A} (f : A -> bool) (l : list A) :
  filter f (filter f l) = filter f l.
Proof.
  induction l as [|a l IH]; simpl; [reflexivity|].
  destruct (f a) eqn:Hf; simpl; rewrite ?Hf, IH; reflexivity.
Qed.

Lemma filter_filter_disjoint {A} (f g : A -> bool) (l : list A) :
  (forall a, f a = true -> g a = false) -> filter g (filter f l) = [].
Proof.
  intros H. induction l as [|a l IH]; simpl; [reflexivity|].
  destruct (f a) eqn:Hf; simpl; [rewrite (H a Hf)|]; exact IH.
Qed.

Lemma summary_frame_table (ss : list Summary) :
  Forall (fun s => Int64.in_range (s_hit s) = true) ss ->
  Forall (fun s => complete [s_team s; s_match s; s_phase s] = true) ss ->
  summary_table (summary_frame ss) = true.
Proof.
  unfold summary_table, summaries. cbn [columns data summary_frame].
  destruct (list_eq_dec string_dec summary_columns summary_columns); [|congruence].
  cbn [andb].
  induction 1 as [|s ss Hs Hss IH]; intros Hkeys; [reflexivity|].
  inversion Hkeys as [|? ? Hk Hkeys']; subst.
  cbn [map traverse]. unfold summary_row at 1. cbn [summary_of].
  rewrite Hs, Hk. cbn [andb]. specialize (IH Hkeys').
  destruct (traverse summary_of (map summary_row ss)); [reflexivity | discriminate].
Qed.

(** X5.  A phase view is a summary table again.  Filtering it by the same
    phase changes nothing, and filtering it by the other phase leaves the
    four columns and no row. *)
Theorem view_filter_phase_again (tbl : DataFrame) (selector again : string) :
  summary_table tbl = true ->
  str_in (str_lower selector) ["auto"; "tele"] = true ->
  str_in (str_lower again) ["auto"; "tele"] = true ->
  exists out,
    view_filter tbl (PyStr selector) = Ok out
    /\ summary_table out = true
    /\ (str_lower again = str_lower selector ->
        view_filter out (PyStr again) = Ok out)
    /\ (str_lower again <> str_lower selector ->
        view_filter out (PyStr again) =
        Ok {| columns := ["team"; "match"; "phase"; "hit"]; data := [] |}).
Proof.
  intros Htbl Hsel Hagain.
  destruct (summary_table_inv tbl Htbl) as (ss & _ & -> & Hr & Hkeys).
  exists (summary_frame (spec_view_phase (str_lower selector) ss)).
  split; [now apply view_filter_phase|]. split.
  - apply summary_frame_table; unfold spec_view_phase;
      apply Forall_forall; intros s Hs; apply filter_In in Hs;
      rewrite Forall_forall in Hr, Hkeys; [now apply Hr | now apply Hkeys].
  - split; intros Hv.
    + rewrite (view_filter_phase _ again _ eq_refl Hagain), Hv.
      unfold spec_view_phase. now rewrite filter_filter_same.
    + rewrite (view_filter_phase _ again _ eq_refl Hagain).
      unfold spec_view_phase, summary_frame. rewrite filter_filter_disjoint; [reflexivity|].
      intros s.
      destruct (cell_eq_dec (s_phase s) (Str (str_lower selector))) as [->|];
        [|discriminate].
      intros _. destruct (cell_eq_dec (Str (str_lower selector)) (Str (str_lower again)));
        [congruence | reflexivity].
Qed.

Lemma view_filter_phase_again_witness :
  exists out,
    view_filter sample_summary (PyStr "Auto") = Ok out
    /\ summary_table out = true
    /\ (str_lower "TELE" = str_lower "Auto" ->
        view_filter out (PyStr "TELE") = Ok out)
    /\ (str_lower "TELE" <> str_lower "Auto" ->
        view_filter out (PyStr "TELE") =
        Ok {| columns := ["team"; "match"; "phase"; "hit"]; data := [] |}).
Proof.
  apply (view_filter_phase_again sample_summary "Auto" "TELE"); reflexivity.
Defined.


(** ** Grouping in two steps *)

(** The groups are determined by the keys that occur and by the int64 total
    of each key. *)
Lemma groups_ext (pairs pairs' : list (key * Z)) :
  (forall k, In k (map fst pairs) <-> In k (map fst pairs')) ->
  (forall k, Int64.wrap (key_sum k pairs) = Int64.wrap (key_sum k pairs')) ->
  sort_groups (group_sums pairs) = sort_groups (group_sums pairs').
Proof.
  intros Hkeys Hsums. apply sorted_perm_eq; try apply groups_sorted.
  apply NoDup_Permutation.
  - apply (NoDup_map_inv fst), groups_keys_NoDup.
  - apply (NoDup_map_inv fst), groups_keys_NoDup.
  - intros [k v]. now rewrite !groups_In, Hkeys, Hsums.
Qed.

Section KeyFilter.

(** A condition on rows that only looks at the key. *)
Variable q : key -> bool.

Lemma filter_add_exact (k : key) (z : Z) (gs : list (key * Z)) :
  filter (fun p => q (fst p)) (add_to_group_exact k z gs) =
  if q k then add_to_group_exact k z (filter (fun p => q (fst p)) gs)
  else filter (fun p => q (fst p)) gs.
Proof.
  induction gs as [|[k0 a] gs IH]; simpl.
  - destruct (q k); reflexivity.
  - destruct (key_eqb_spec k k0) as [->|Hne]; simpl.
    + destruct (q k0); simpl; [now rewrite key_eqb_refl | reflexivity].
    + rewrite IH. destruct (q k0) eqn:Hk0, (q k) eqn:Hk; simpl; try reflexivity.
      destruct (key_eqb_spec k k0); [contradiction | reflexivity].
Qed.

Lemma filter_group_sums_exact (pairs : list (key * Z)) :
  filter (fun p => q (fst p)) (group_sums_exact pairs) =
  group_sums_exact (filter (fun p => q (fst p)) pairs).
Proof.
  induction pairs as [|p l IH] using rev_ind; [reflexivity|].
  rewrite group_sums_exact_snoc, filter_add_exact, IH, filter_app. simpl.
  destruct (q (fst p)).
  - now rewrite group_sums_exact_snoc.
  - now rewrite app_nil_r.
Qed.

(** The int64 total of the groups that satisfy the condition is the int64
    total of the rows that satisfy it. *)
Lemma filtered_groups_total (pairs : list (key * Z)) :
  Int64.wrap (Zsum (map snd (filter (fun p => q (fst p))
                                    (sort_groups (group_sums pairs))))) =
  Int64.wrap (Zsum (map snd (filter (fun p => q (fst p)) pairs))).
Proof.
  rewrite (Zsum_perm _ _ (Permutation_map snd
             (filter_perm (fun p => q (fst p)) _ _ (groups_perm_exact pairs)))).
  rewrite (filter_map_commute (fun p => q (fst p)) wrap_total). cbn [wrap_total fst].
  rewrite filter_group_sums_exact.
  rewrite <- (total_group_sums_exact (filter (fun p => q (fst p)) pairs)).
  replace (map snd (map wrap_total
                      (group_sums_exact (filter (fun p => q (fst p)) pairs))))
    with (map Int64.wrap
              (map snd (group_sums_exact (filter (fun p => q (fst p)) pairs))))
    by (rewrite !map_map; reflexivity).
  apply wrap_Zsum_map_wrap.
Qed.

End KeyFilter.

Lemma key_sum_map_key (f : key -> key) (k : key) (l : list (key * Z)) :
  key_sum k (map (fun p => (f (fst p), snd p)) l) =
  Zsum (map snd (filter (fun p => key_eqb (f (fst p)) k) l)).
Proof.
  unfold key_sum. rewrite filter_map_commute, map_map. reflexivity.
Qed.

(** Grouping the groups by a coarser key is grouping the rows by the coarser
    key. *)
Lemma regroup_coarser (f : key -> key) (pairs : list (key * Z)) :
  sort_groups (group_sums
    (map (fun g => (f (fst g), snd g)) (sort_groups (group_sums pairs)))) =
  sort_groups (group_sums (map (fun p => (f (fst p), snd p)) pairs)).
Proof.
  apply groups_ext.
  - intros k. rewrite !map_map. cbn [fst]. rewrite !in_map_iff. split.
    + intros [[k0 v] [Hk Hin]]. apply groups_In in Hin. destruct Hin as [Hin _].
      apply in_map_iff in Hin. destruct Hin as [p [Hp Hin]].
      exists p. simpl in Hk. now rewrite Hp.
    + intros [p [Hk Hin]].
      exists (fst p, Int64.wrap (key_sum (fst p) pairs)). split; [exact Hk|].
      apply groups_In. split; [now apply in_map | reflexivity].
  - intros k. rewrite !key_sum_map_key.
    apply (filtered_groups_total (fun k' => key_eqb (f k') k)).
Qed.

Lemma key_value_group_row3 (g : key * Z) :
  List.length (fst g) = 3%nat ->
  key_value [0%nat; 1%nat] 3 (group_row g) = Ok (firstn 2 (fst g), Int (snd g)).
Proof.
  destruct g as [[|t [|m [|p [|]]]] v]; try discriminate. reflexivity.
Qed.

(** X6.  The "All" view of the aggregate is the total per (team, match) of
    the cube rows of the raw table in which team, match and phase are all
    present: on these rows, grouping first by phase and then across phases
    loses nothing.  A cube row whose phase alone is missing is lost, although
    its team and match are known.  On a table without missing keys the view
    is the total of the cube rows per (team, match). *)
Theorem aggregate_then_all (T : DataFrame) (selector : string) :
  raw_table T = true ->
  str_in (str_lower selector) ["auto"; "tele"] = false ->
  exists out view ms,
    get_cube_measures T = Ok out
    /\ measurements T = Some ms
    /\ view_filter out (PyStr selector) = Ok view
    /\ columns view = ["team"; "match"; "hit"]
    /\ Permutation (data view) (map total_row (spec_totals (present ms)))
    /\ (forallb has_keys ms = true ->
        Permutation (data view) (map total_row (spec_totals ms))).
Proof.
  intros Hraw Hsel.
  destruct (raw_table_inv T Hraw) as (ms & _ & _ & _ & _ & _ & Hms & _).
  set (pairs := map (fun m => (key3 (team_match_phase m), m_hit m))
                    (cube_rows (present ms))).
  assert (Hlen := groups_keys_length 3 pairs (cube_pairs_length _)).
  assert (Hcomplete := cube_keys_complete ms). fold pairs in Hcomplete.
  assert (Hview : view_filter
            {| columns := summary_columns;
               data := map group_row (sort_groups (group_sums pairs)) |}
            (PyStr selector) =
          Ok {| columns := total_columns;
                data := map group_row
                          (sort_groups
                             (group_sums
                                (map (fun g => (firstn 2 (fst g), snd g))
                                     (sort_groups (group_sums pairs))))) |}).
  { unfold view_filter. cbn [Py.lower Py.bind]. rewrite Hsel.
    unfold groupby_agg_sum. simpl.
    rewrite (mapM_map _ group_row (fun g => (firstn 2 (fst g), Int (snd g)))).
    - cbn [Py.bind].
      rewrite (int64_pairs_Int (fun g : key * Z => firstn 2 (fst g)) (fun g => snd g)).
      rewrite (dropna_map (fun g : key * Z => firstn 2 (fst g)) (fun g : key * Z => snd g)).
      rewrite filter_all; [reflexivity|].
      apply Forall_forall. intros [k v] Hg. rewrite Forall_forall in Hlen, Hcomplete.
      specialize (Hlen _ Hg). specialize (Hcomplete _ Hg). cbn [fst] in *.
      destruct k as [|t [|m [|p [|]]]]; try discriminate.
      exact (complete_team_match t m p Hcomplete).
    - intros g Hg. rewrite Forall_forall in Hlen.
      apply key_value_group_row3, Hlen, Hg. }
  assert (Hperm : Permutation
            (map group_row
               (sort_groups
                  (group_sums
                     (map (fun g => (firstn 2 (fst g), snd g))
                          (sort_groups (group_sums pairs))))))
            (map total_row (spec_totals (present ms)))).
  { assert (Hre := regroup_coarser (firstn 2) pairs).
    unfold key in *. rewrite Hre.
    unfold pairs. rewrite map_map. cbn [fst snd].
    unfold spec_totals. rewrite <- total_rows_of_groups.
    apply Permutation_map.
    apply (groups_refine cell2_eq_dec team_match_of m_hit key2 key2_inj). }
  eexists. eexists. exists ms.
  split; [apply (get_cube_measures_eq T ms Hraw Hms)|].
  split; [assumption|]. fold pairs.
  split; [exact Hview|].
  split; [reflexivity|]. cbn [data].
  split; [exact Hperm|].
  intros Hall. now rewrite (present_all ms Hall) in Hperm.
Qed.

Lemma aggregate_then_all_witness :
  exists out view ms,
    get_cube_measures sample_raw = Ok out
    /\ measurements sample_raw = Some ms
    /\ view_filter out (PyStr "All") = Ok view
    /\ columns view = ["team"; "match"; "hit"]
    /\ Permutation (data view) (map total_row (spec_totals (present ms)))
    /\ (forallb has_keys ms = true ->
        Permutation (data view) (map total_row (spec_totals ms))).
Proof.
  apply (aggregate_then_all sample_raw "All"); reflexivity.
Defined.

Lemma filter_sorted {A} (R : A -> A -> Prop) (f : A -> bool) (l : list A) :
  StronglySorted R l -> StronglySorted R (filter f l).
Proof.
  induction 1 as [|a l Hl IH Ha]; simpl; [constructor|].
  destruct (f a); [|assumption]. constructor; [assumption|].
  apply Forall_forall. intros b Hb. apply filter_In in Hb.
  rewrite Forall_forall in Ha. now apply Ha.
Qed.

Lemma key_sum_filter (q : key -> bool) (k : key) (pairs : list (key * Z)) :
  q k = true ->
  key_sum k (filter (fun p => q (fst p)) pairs) = key_sum k pairs.
Proof.
  intros Hk. unfold key_sum. rewrite filter_swap. f_equal. f_equal.
  induction pairs as [|[k0 a] l IH]; simpl; [reflexivity|].
  destruct (key_eqb_spec k0 k) as [->|Hne]; simpl; [rewrite Hk|]; now rewrite IH.
Qed.

(** Selecting groups by a condition on the key is grouping the rows that
    satisfy it. *)
Lemma groups_filter (q : key -> bool) (pairs : list (key * Z)) :
  filter (fun g => q (fst g)) (sort_groups (group_sums pairs)) =
  sort_groups (group_sums (filter (fun p => q (fst p)) pairs)).
Proof.
  apply sorted_perm_eq;
    [apply filter_sorted, groups_sorted | apply groups_sorted |].
  apply NoDup_Permutation.
  - apply NoDup_filter, (NoDup_map_inv fst), groups_keys_NoDup.
  - apply (NoDup_map_inv fst), groups_keys_NoDup.
  - intros [k v]. rewrite filter_In, !groups_In. cbn [fst]. split.
    + intros [[Hin ->] Hq]. split.
      * apply in_map_iff in Hin. destruct Hin as [p [Hp Hin]].
        apply in_map_iff. exists p. split; [assumption|].
        apply filter_In. split; [assumption | now rewrite Hp].
      * now rewrite key_sum_filter.
    + intros [Hin ->]. apply in_map_iff in Hin. destruct Hin as [p [Hp Hin]].
      apply filter_In in Hin. destruct Hin as [Hin Hq]. rewrite Hp in Hq.
      split; [split|assumption].
      * apply in_map_iff. now exists p.
      * now rewrite key_sum_filter.
Qed.

Lemma Forall2_filter {A B} (P : A -> B -> Prop) (f : A -> bool) (g : B -> bool)
      (l : list A) (l' : list B) :
  (forall a b, P a b -> f a = g b) ->
  Forall2 P l l' -> Forall2 P (filter f l) (filter g l').
Proof.
  intros Hfg. induction 1 as [|a b l l' Hab Hl IH]; simpl; [constructor|].
  rewrite (Hfg a b Hab). destruct (g b); [constructor|]; assumption.
Qed.

Lemma Forall2_traverse {A B} (f : A -> option B) (l : list A) (l' : list B) :
  Forall2 (fun a b => f a = Some b) l l' -> traverse f l = Some l'.
Proof.
  induction 1 as [|a b l l' Ha Hl IH]; simpl; [reflexivity|].
  now rewrite Ha, IH.
Qed.

Lemma forallb_filter {A} (f g : A -> bool) (l : list A) :
  forallb f l = true -> forallb f (filter g l) = true.
Proof.
  rewrite !forallb_forall. intros H a Ha. apply filter_In in Ha. now apply H.
Qed.

Lemma cell_eqb_dec (a b : cell) :
  cell_eqb a b = if cell_eq_dec a b then true else false.
Proof.
  destruct (cell_eqb_spec a b); destruct (cell_eq_dec a b); congruence.
Qed.

(** The rows of one phase of a raw table form a raw table, with the
    measurement records of that phase. *)
Lemma raw_table_of_phase (T : DataFrame) (ms : list Measurement) (v : string) :
  raw_table T = true ->
  measurements T = Some ms ->
  raw_table {| columns := columns T; data := rows_of_phase T v |} = true
  /\ measurements {| columns := columns T; data := rows_of_phase T v |}
     = Some (filter (of_phase v) ms).
Proof.
  intros Hraw Hms.
  assert (Hms' : measurements {| columns := columns T; data := rows_of_phase T v |}
                 = Some (filter (of_phase v) ms)).
  { unfold measurements in *. cbn [columns data]. apply Forall2_traverse.
    unfold rows_of_phase. apply Forall2_filter; [|now apply traverse_Forall2].
    intros r m Hrm. apply measurement_of_fields in Hrm.
    destruct Hrm as (_ & _ & -> & _). unfold of_phase. apply cell_eqb_dec. }
  split; [|assumption].
  unfold raw_table in *. rewrite Hms'. cbn [columns data is_some].
  rewrite !andb_true_iff in *. destruct Hraw as [[Hwf Hnames] _].
  repeat split; try assumption.
  unfold wf_frame in *. cbn [columns data]. rewrite !andb_true_iff in *.
  destruct Hwf as [Hd Hrows]. split; [assumption|].
  unfold rows_of_phase. now apply forallb_filter.
Qed.

(** X7.  Filtering the aggregate by a phase is aggregating the rows of that
    phase: for a selector that lower-cases to "auto" or "tele", the view of
    the aggregate of a raw table is, row for row, the aggregate of the raw
    table restricted to the rows whose phase is the lower-cased selector. *)
Theorem aggregate_then_phase (T : DataFrame) (selector : string) :
  raw_table T = true ->
  str_in (str_lower selector) ["auto"; "tele"] = true ->
  exists out,
    get_cube_measures T = Ok out
    /\ view_filter out (PyStr selector) =
       get_cube_measures
         {| columns := columns T; data := rows_of_phase T (str_lower selector) |}.
Proof.
  intros Hraw Hsel.
  destruct (raw_table_inv T Hraw) as (ms & _ & _ & _ & _ & _ & Hms & _).
  destruct (raw_table_of_phase T ms (str_lower selector) Hraw Hms) as [Hraw' Hms'].
  destruct (get_cube_measures_summary_table T Hraw) as (out & Hout & Htbl).
  exists out. split; [assumption|].
  rewrite (get_cube_measures_eq _ _ Hraw' Hms').
  rewrite (get_cube_measures_eq T ms Hraw Hms) in Hout. injection Hout as Hout'.
  destruct (summary_table_inv out Htbl) as (ss & _ & Hframe & _).
  rewrite Hframe at 1.
  rewrite (view_filter_phase ss selector _ eq_refl Hsel).
  unfold summary_frame at 1. rewrite <- rows_of_phase_summary_frame, <- Hframe.
  rewrite <- Hout'. f_equal. f_equal.
  set (pairs := map (fun m => (key3 (team_match_phase m), m_hit m))
                    (cube_rows (present ms))).
  assert (Hlen := groups_keys_length 3 pairs (cube_pairs_length _)).
  unfold rows_of_phase. cbn [columns data].
  rewrite filter_map_commute. f_equal.
  rewrite (filter_ext_in _ (fun g => key_of_phase (str_lower selector) (fst g))).
  - rewrite groups_filter. f_equal. f_equal. unfold pairs, cube_rows, present.
    rewrite (filter_swap has_keys (of_phase (str_lower selector)) ms).
    rewrite (filter_swap is_cube (of_phase (str_lower selector))).
    rewrite filter_map_commute. f_equal.
    apply filter_ext. intros m. unfold key_of_phase, of_phase. simpl.
    apply cell_eqb_dec.
  - intros [k v] Hin. rewrite Forall_forall in Hlen. specialize (Hlen _ Hin).
    simpl in Hlen. destruct k as [|t [|m [|p [|]]]]; try discriminate.
    reflexivity.
Qed.

Lemma aggregate_then_phase_witness :
  exists out,
    get_cube_measures sample_raw = Ok out
    /\ view_filter out (PyStr "Tele") =
       get_cube_measures
         {| columns := columns sample_raw;
            data := rows_of_phase sample_raw (str_lower "Tele") |}.
Proof.
  apply (aggregate_then_phase sample_raw "Tele"); reflexivity.
Defined.


(** ** Missing columns, empty tables *)




Lemma length_nodup_le {A} (dec : forall a b : A, {a = b} + {a <> b}) (l : list A) :
  (List.length (nodup dec l) <= List.length l)%nat.
Proof.
  induction l as [|a l IH]; simpl; [lia|].
  destruct (in_dec dec a l); simpl; lia.
Qed.

Lemma nodup_nil {A} (dec : forall a b : A, {a = b} + {a <> b}) (l : list A) :
  nodup dec l = [] <-> l = [].
Proof.
  split; [|now intros ->].
  destruct l as [|a l]; [reflexivity|]. intros H. exfalso.
  assert (Hin : In a (nodup dec (a :: l))) by (apply nodup_In; now left).
  now rewrite H in Hin.
Qed.

(** X9.  The aggregate has at most one row per cube row of the raw table in
    which team, match and phase are all present, and it is empty exactly
    when the raw table has no such row; an empty aggregate still has its
    four columns.  On a table without missing keys, the aggregate is empty
    exactly when the table has no cube row. *)
Theorem get_cube_measures_row_count (T : DataFrame) :
  raw_table T = true ->
  exists out ms,
    get_cube_measures T = Ok out
    /\ measurements T = Some ms
    /\ (List.length (data out) <= List.length (cube_rows (present ms)))%nat
    /\ (List.length (cube_rows (present ms)) <= List.length (cube_rows ms)
        <= List.length (data T))%nat
    /\ (data out = [] <-> cube_rows (present ms) = [])
    /\ (cube_rows (present ms) = [] ->
        out = {| columns := ["team"; "match"; "phase"; "hit"]; data := [] |})
    /\ (forallb has_keys ms = true -> (data out = [] <-> cube_rows ms = [])).
Proof.
  intros Hraw.
  destruct (raw_table_inv T Hraw) as (ms & _ & _ & _ & _ & _ & Hms & _).
  eexists. exists ms. split; [apply (get_cube_measures_eq T ms Hraw Hms)|].
  split; [assumption|]. cbn [data].
  assert (Hperm := groups_refine cell3_eq_dec team_match_phase m_hit key3 key3_inj
                     (cube_rows (present ms))).
  assert (Hlen := Permutation_length Hperm).
  unfold spec_groups in Hlen. rewrite !length_map in Hlen.
  assert (Hrows : List.length (data T) = List.length ms).
  { unfold measurements in Hms. apply traverse_Forall2 in Hms.
    exact (Forall2_length Hms). }
  assert (Hempty : map group_row
                     (sort_groups
                        (group_sums
                           (map (fun m => (key3 (team_match_phase m), m_hit m))
                                (cube_rows (present ms))))) = []
                   <-> cube_rows (present ms) = []).
  { rewrite <- !length_zero_iff_nil, length_map, Hlen, !length_zero_iff_nil.
    rewrite nodup_nil. split.
    - apply map_eq_nil.
    - now intros ->. }
  split; [|split; [|split; [|split]]].
  - rewrite length_map, Hlen.
    etransitivity; [apply length_nodup_le | now rewrite length_map].
  - rewrite Hrows. split.
    + unfold cube_rows, present. rewrite filter_swap. apply filter_length_le.
    + unfold cube_rows. apply filter_length_le.
  - exact Hempty.
  - intros ->. reflexivity.
  - intros Hall. rewrite Hempty, (present_all ms Hall). tauto.
Qed.

Lemma get_cube_measures_row_count_witness :
  exists out ms,
    get_cube_measures sample_missing = Ok out
    /\ measurements sample_missing = Some ms
    /\ (List.length (data out) <= List.length (cube_rows (present ms)))%nat
    /\ (List.length (cube_rows (present ms)) <= List.length (cube_rows ms)
        <= List.length (data sample_missing))%nat
    /\ (data out = [] <-> cube_rows (present ms) = [])
    /\ (cube_rows (present ms) = [] ->
        out = {| columns := ["team"; "match"; "phase"; "hit"]; data := [] |})
    /\ (forallb has_keys ms = true -> (data out = [] <-> cube_rows ms = [])).
Proof.
  apply (get_cube_measures_row_count sample_missing). reflexivity.
Defined.

(** ** The figure *)

Lemma cube_hist_summary_frame (ss : list Summary) (phase : value) :
  cube_hist (summary_frame ss) phase =
  Ok {| Plotly.x := map (fun s => Int (s_hit s)) ss;
        Plotly.title :=
          ("Histogram of Cubes Placed Per Match: " ++ Py.format phase)%string;
        Plotly.xaxis_title := "Cubes Placed by a Team in a Single Match";
        Plotly.yaxis_title := "Count";
        Plotly.marker_line := Some (1, "lightgrey") |}.
Proof.
  unfold cube_hist, Plotly.histogram. simpl.
  unfold take. now rewrite (mapM_map _ summary_row (fun s => Int (s_hit s))).
Qed.

Lemma cube_hist_group_rows (gs : list (key * Z)) (phase : value) :
  Forall (fun g => List.length (fst g) = 2%nat) gs ->
  cube_hist {| columns := total_columns; data := map group_row gs |} phase =
  Ok {| Plotly.x := map (fun g => Int (snd g)) gs;
        Plotly.title :=
          ("Histogram of Cubes Placed Per Match: " ++ Py.format phase)%string;
        Plotly.xaxis_title := "Cubes Placed by a Team in a Single Match";
        Plotly.yaxis_title := "Count";
        Plotly.marker_line := Some (1, "lightgrey") |}.
Proof.
  intros Hlen. unfold cube_hist, Plotly.histogram. simpl.
  now rewrite (take_group_rows 2 gs Hlen).
Qed.

(** X10.  For a summary table behind the reference and any selector string,
    [_build_cube_histogram] allocates exactly two objects, the view and the
    figure, and returns the reference to the figure.  The figure has one
    sample per row of the view (its [hit] column), quotes the selector as
    given in its title, and carries the fixed axis titles and, after the two
    updates in place, the bar outline and the y-axis title. *)
Theorem build_cube_histogram_figure
  (r : Store.ref) (st : Store.store) (tbl : DataFrame) (selector : string) :
  Store.lookup st r = Some (Store.Frame tbl) ->
  summary_table tbl = true ->
  exists view hits,
    view_filter tbl (PyStr selector) = Ok view
    /\ hit_values view = Ok hits
    /\ List.length hits = List.length (data view)
    /\ _build_cube_histogram r (PyStr selector) st =
       (Ok (S (List.length st)),
        st ++ [Store.Frame view;
               Store.Figure
                 {| Plotly.x := map Int hits;
                    Plotly.title :=
                      ("Histogram of Cubes Placed Per Match: " ++ selector)%string;
                    Plotly.xaxis_title := "Cubes Placed by a Team in a Single Match";
                    Plotly.yaxis_title := "Count";
                    Plotly.marker_line := Some (1, "lightgrey") |}]).
Proof.
  intros Hr Htbl.
  destruct (summary_table_inv tbl Htbl) as (ss & _ & -> & _ & Hkeys).
  rewrite build_cube_histogram_run, Hr. cbn [Py.lower].
  destruct (str_in (str_lower selector) ["auto"; "tele"]) eqn:Hsel.
  - rewrite (view_filter_phase ss selector _ eq_refl Hsel).
    eexists. exists (map s_hit (spec_view_phase (str_lower selector) ss)).
    split; [reflexivity|]. split; [|split].
    + unfold hit_values, getitem. simpl. unfold take.
      rewrite (mapM_map _ summary_row (fun s => Int (s_hit s))) by reflexivity.
      cbn [Py.bind]. apply (int64_values_Int s_hit).
    + cbn [data summary_frame]. now rewrite !length_map.
    + rewrite cube_hist_summary_frame, map_map. reflexivity.
  - rewrite (view_filter_all ss selector Hkeys Hsel).
    set (gs := sort_groups (group_sums (map (fun s => (key2 (team_match s), s_hit s)) ss))).
    assert (Hlen : Forall (fun g => List.length (fst g) = 2%nat) gs)
      by apply groups_keys_length, team_match_pairs_length.
    eexists. exists (map snd gs).
    split; [reflexivity|]. split; [|split].
    + unfold hit_values, getitem. simpl. rewrite (take_group_rows 2 gs Hlen).
      cbn [Py.bind]. apply (int64_values_Int snd).
    + cbn [data]. now rewrite !length_map.
    + rewrite (cube_hist_group_rows gs _ Hlen), map_map. reflexivity.
Qed.

Lemma build_cube_histogram_figure_witness :
  exists view hits,
    view_filter sample_summary (PyStr "Tele") = Ok view
    /\ hit_values view = Ok hits
    /\ List.length hits = List.length (data view)
    /\ _build_cube_histogram 0%nat (PyStr "Tele") [Store.Frame sample_summary] =
       (Ok 2%nat,
        [Store.Frame sample_summary] ++
        [Store.Frame view;
         Store.Figure
           {| Plotly.x := map Int hits;
              Plotly.title := "Histogram of Cubes Placed Per Match: Tele";
              Plotly.xaxis_title := "Cubes Placed by a Team in a Single Match";
              Plotly.yaxis_title := "Count";
              Plotly.marker_line := Some (1, "lightgrey") |}]).
Proof.
  apply (build_cube_histogram_figure 0%nat [Store.Frame sample_summary]
           sample_summary "Tele");
    reflexivity.
Defined.


(** ** The module on the store *)

Lemma getattr_run (r : Store.ref) (name : string) (st : Store.store) (df : DataFrame) :
  Store.lookup st r = Some (Store.Frame df) ->
  Store.getattr r name st = (getattr df name, st).
Proof.
  intros Hr. unfold Store.getattr. rewrite bind_run.
  unfold Store.read_frame. now rewrite Hr.
Qed.

Lemma loc_run (r : Store.ref) (m : mask) (st : Store.store) (df : DataFrame) :
  Store.lookup st r = Some (Store.Frame df) ->
  Store.loc r m st =
  match loc df m with
  | Ok out => (Ok (List.length st), st ++ [Store.Frame out])
  | Raise e => (Raise e, st)
  end.
Proof.
  intros Hr. unfold Store.loc. rewrite bind_run.
  unfold Store.read_frame. rewrite Hr. rewrite bind_run. unfold Store.lift.
  destruct (loc df m); reflexivity.
Qed.

Lemma groupby_agg_sum_run (r : Store.ref) (by_ : list string) (val : string)
      (st : Store.store) (df : DataFrame) :
  Store.lookup st r = Some (Store.Frame df) ->
  Store.groupby_agg_sum r by_ val st =
  match groupby_agg_sum df by_ val with
  | Ok out => (Ok (List.length st), st ++ [Store.Frame out])
  | Raise e => (Raise e, st)
  end.
Proof.
  intros Hr. unfold Store.groupby_agg_sum. rewrite bind_run.
  unfold Store.read_frame. rewrite Hr. rewrite bind_run. unfold Store.lift.
  destruct (groupby_agg_sum df by_ val); reflexivity.
Qed.

(** [get_cube_measures] on a reference computes what it computes on the
    frame, and allocates the cube rows and the aggregate. *)
Lemma main_get_cube_measures_run (r : Store.ref) (st : Store.store) (df : DataFrame) :
  Store.lookup st r = Some (Store.Frame df) ->
  match get_cube_measures df with
  | Ok out =>
      exists cubes,
        Main.get_cube_measures r st =
        (Ok (S (List.length st)), st ++ [Store.Frame cubes; Store.Frame out])
  | Raise e =>
      exists fresh, Main.get_cube_measures r st = (Raise e, st ++ fresh)
  end.
Proof.
  intros Hr.
  assert (Hrun : Main.get_cube_measures r st =
    match getattr df "task" with
    | Raise e => (Raise e, st)
    | Ok task =>
        match str_startswith task "cube" with
        | Raise e => (Raise e, st)
        | Ok mask =>
            match loc df mask with
            | Raise e => (Raise e, st)
            | Ok cubes =>
                match groupby_agg_sum cubes ["team"; "match"; "phase"] "hit" with
                | Raise e => (Raise e, st ++ [Store.Frame cubes])
                | Ok out =>
                    (Ok (S (List.length st)),
                     st ++ [Store.Frame cubes; Store.Frame out])
                end
            end
        end
    end).
  { unfold Main.get_cube_measures.
    rewrite bind_run, (getattr_run r "task" st df Hr).
    destruct (getattr df "task") as [task|e]; [|reflexivity].
    rewrite bind_run. unfold Store.lift.
    destruct (str_startswith task "cube") as [mask|e]; [|reflexivity].
    rewrite bind_run, (loc_run r mask st df Hr).
    destruct (loc df mask) as [cubes|e]; [|reflexivity].
    rewrite (groupby_agg_sum_run _ _ _ _ cubes (lookup_alloc st (Store.Frame cubes))).
    destruct (groupby_agg_sum cubes ["team"; "match"; "phase"] "hit") as [out|e];
      [|reflexivity].
    rewrite length_app, <- app_assoc. cbn [List.length app].
    now rewrite Nat.add_1_r. }
  rewrite Hrun. unfold get_cube_measures.
  destruct (getattr df "task") as [task|e]; cbn [Py.bind];
    [|exists []; now rewrite app_nil_r].
  destruct (str_startswith task "cube") as [mask|e]; cbn [Py.bind];
    [|exists []; now rewrite app_nil_r].
  destruct (loc df mask) as [cubes|e]; cbn [Py.bind];
    [|exists []; now rewrite app_nil_r].
  destruct (groupby_agg_sum cubes ["team"; "match"; "phase"] "hit") as [out|e].
  - now exists cubes.
  - now exists [Store.Frame cubes].
Qed.

(** One request: the figure sent to the page is the figure as it is after
    the two updates in place. *)
Lemma respond_run (g : Main.Globals) (phase : value) (st : Store.store) :
  Main.respond g phase st =
  match Py.lower phase with
  | Raise e => (Raise e, st)
  | Ok _ =>
      match Store.lookup st (Main.cube_measures g) with
      | Some (Store.Frame df) =>
          match view_filter df phase with
          | Raise e => (Raise e, st)
          | Ok filtered =>
              match cube_hist filtered phase with
              | Raise e => (Raise e, st ++ [Store.Frame filtered])
              | Ok fig => (Ok fig, st ++ [Store.Frame filtered; Store.Figure fig])
              end
          end
      | _ => (Raise (NotModelled "not a reference to a frame"), st)
      end
  end.
Proof.
  unfold Main.respond, Main.update_cube_hist.
  rewrite bind_run, build_cube_histogram_run.
  destruct (Py.lower phase); [|reflexivity].
  destruct (Store.lookup st (Main.cube_measures g)) as [[df|fig]|]; try reflexivity.
  destruct (view_filter df phase) as [filtered|]; [|reflexivity].
  destruct (cube_hist filtered phase) as [fig|]; [|reflexivity].
  unfold Store.read_figure. now rewrite lookup_alloc2.
Qed.

Lemma step_store (g : Main.Globals) (phase : value) (st : Store.store) :
  (exists fresh, snd (Main.respond g phase st) = st ++ fresh)
  /\ Store.lookup (snd (Main.respond g phase st)) (Main.cube_measures g)
     = Store.lookup st (Main.cube_measures g).
Proof.
  rewrite respond_run.
  destruct (Py.lower phase); [|split; [exists []; now rewrite app_nil_r | reflexivity]].
  destruct (Store.lookup st (Main.cube_measures g)) as [[df|fig]|] eqn:Hr;
    try (split; [exists []; now rewrite app_nil_r | exact Hr]).
  destruct (view_filter df phase) as [filtered|];
    [|split; [exists []; now rewrite app_nil_r | exact Hr]].
  destruct (cube_hist filtered phase) as [fig|]; cbn [snd];
    (split; [now eexists | now apply lookup_grow]).
Qed.

Lemma response_lookup (g : Main.Globals) (phase : value) (st st' : Store.store) :
  Store.lookup st' (Main.cube_measures g) = Store.lookup st (Main.cube_measures g) ->
  fst (Main.respond g phase st') = fst (Main.respond g phase st).
Proof.
  intros H. rewrite !respond_run, H.
  destruct (Py.lower phase); [|reflexivity].
  destruct (Store.lookup st (Main.cube_measures g)) as [[df|fig]|]; try reflexivity.
  destruct (view_filter df phase) as [filtered|]; [|reflexivity].
  destruct (cube_hist filtered phase); reflexivity.
Qed.

Lemma serve_invariant (g : Main.Globals) (events : list value) (st : Store.store) :
  (exists fresh, snd (Main.serve g events st) = st ++ fresh)
  /\ Store.lookup (snd (Main.serve g events st)) (Main.cube_measures g)
     = Store.lookup st (Main.cube_measures g)
  /\ fst (Main.serve g events st) =
     map (fun phase => fst (Main.respond g phase st)) events.
Proof.
  revert st. induction events as [|phase events IH]; intros st.
  - simpl. repeat split. exists []. now rewrite app_nil_r.
  - cbn [Main.serve map].
    destruct (step_store g phase st) as [[fresh Hfresh] Hsame].
    destruct (Main.respond g phase st) as [response st'] eqn:Hstep.
    cbn [snd] in Hfresh, Hsame.
    destruct (IH st') as ([fresh' Hfresh'] & Hsame' & Hresp).
    destruct (Main.serve g events st') as [responses st''] eqn:Hserve.
    cbn [fst snd] in *. split; [|split].
    + exists (fresh ++ fresh'). now rewrite Hfresh', Hfresh, app_assoc.
    + now rewrite Hsame', Hsame.
    + f_equal. rewrite Hresp. apply map_ext. intros phase'.
      now apply response_lookup.
Qed.

(** X12.  The callback updates figures in place, and yet, however many
    times it fires and whatever it is given, every object that was in the
    store before, the two frames the globals name included, is unchanged:
    the updates land on figures the callback itself allocated.  And each
    response is the figure, or the exception, the callback gives for that
    value on the initial store, whatever came before. *)
Theorem serve_keeps_frames (g : Main.Globals) (events : list value) (st : Store.store) :
  (exists fresh, snd (Main.serve g events st) = st ++ fresh)
  /\ (forall r o,
        Store.lookup st r = Some o ->
        Store.lookup (snd (Main.serve g events st)) r = Some o)
  /\ fst (Main.serve g events st) =
     map (fun phase => fst (Main.respond g phase st)) events.
Proof.
  destruct (serve_invariant g events st) as ([fresh Hfresh] & _ & Hresp).
  split; [now exists fresh|]. split; [|assumption].
  intros r o Hr. rewrite Hfresh. now apply lookup_grow.
Qed.

(** What the callback answers when [cube_measures] is a summary table. *)
Lemma response_on_summary (g : Main.Globals) (st : Store.store) (tbl : DataFrame)
      (phase : value) :
  Store.lookup st (Main.cube_measures g) = Some (Store.Frame tbl) ->
  summary_table tbl = true ->
  if is_str phase
  then exists fig, fst (Main.respond g phase st) = Ok fig
  else exists what, fst (Main.respond g phase st) = Raise (AttributeError what).
Proof.
  intros Hr Htbl. rewrite respond_run.
  destruct phase as [|b|selector]; cbn [is_str Py.lower]; try (eexists; reflexivity).
  rewrite Hr. destruct (summary_table_inv tbl Htbl) as (ss & _ & -> & _ & Hkeys).
  destruct (str_in (str_lower selector) ["auto"; "tele"]) eqn:Hsel.
  - rewrite (view_filter_phase ss selector _ eq_refl Hsel), cube_hist_summary_frame.
    eexists. reflexivity.
  - rewrite (view_filter_all ss selector Hkeys Hsel), cube_hist_group_rows.
    + eexists. reflexivity.
    + apply groups_keys_length, team_match_pairs_length.
Qed.

(** X13.  From a raw table to the figures: the module loads, and then every
    value the radio control sends is answered, a string by a figure and
    anything else by [AttributeError], while the loaded table and its
    aggregate stay what they were. *)
Theorem session_on_raw_table (T : DataFrame) (events : list value) :
  raw_table T = true ->
  exists g st out,
    Main.init (Ok T) [] = (Ok g, st)
    /\ get_cube_measures T = Ok out
    /\ Forall2 (fun phase response =>
                  if is_str phase
                  then exists fig, response = Ok fig
                  else exists what, response = Raise (AttributeError what))
               events (fst (Main.serve g events st))
    /\ Store.lookup (snd (Main.serve g events st)) (Main.tmeasures g)
       = Some (Store.Frame T)
    /\ Store.lookup (snd (Main.serve g events st)) (Main.cube_measures g)
       = Some (Store.Frame out).
Proof.
  intros Hraw.
  destruct (get_cube_measures_summary_table T Hraw) as (out & Hout & Htbl).
  assert (Hrun := main_get_cube_measures_run 0%nat [Store.Frame T] T eq_refl).
  rewrite Hout in Hrun. destruct Hrun as [cubes Hrun].
  exists (Main.mkGlobals 0%nat 2%nat),
    [Store.Frame T; Store.Frame cubes; Store.Frame out], out.
  split.
  { unfold Main.init, Main.load_team_measures. rewrite !bind_run.
    unfold Store.lift, Store.alloc. cbn [app List.length].
    rewrite bind_run, Hrun. reflexivity. }
  split; [assumption|].
  destruct (serve_invariant (Main.mkGlobals 0%nat 2%nat) events
              [Store.Frame T; Store.Frame cubes; Store.Frame out])
    as ([fresh Hfresh] & Hsame & Hresp).
  split; [|split].
  - rewrite Hresp. clear Hresp Hfresh Hsame.
    induction events as [|phase events IH]; simpl; constructor; [|assumption].
    apply (response_on_summary (Main.mkGlobals 0%nat 2%nat)
             [Store.Frame T; Store.Frame cubes; Store.Frame out] out phase
             eq_refl Htbl).
  - rewrite Hfresh. reflexivity.
  - rewrite Hsame. reflexivity.
Qed.

Lemma session_on_raw_table_witness :
  exists g st out,
    Main.init (Ok sample_raw) [] = (Ok g, st)
    /\ get_cube_measures sample_raw = Ok out
    /\ Forall2 (fun phase response =>
                  if is_str phase
                  then exists fig, response = Ok fig
                  else exists what, response = Raise (AttributeError what))
               [PyStr "All"; PyNone; PyStr "Tele"]
               (fst (Main.serve g [PyStr "All"; PyNone; PyStr "Tele"] st))
    /\ Store.lookup (snd (Main.serve g [PyStr "All"; PyNone; PyStr "Tele"] st))
         (Main.tmeasures g) = Some (Store.Frame sample_raw)
    /\ Store.lookup (snd (Main.serve g [PyStr "All"; PyNone; PyStr "Tele"] st))
         (Main.cube_measures g) = Some (Store.Frame out).
Proof.
  apply (session_on_raw_table sample_raw [PyStr "All"; PyNone; PyStr "Tele"]).
  reflexivity.
Defined.

(** ** The measures table *)

Lemma distinct_NoDup (l : list string) : distinct l = true -> NoDup l.
Proof.
  induction l as [|a l IH]; simpl; intros H; constructor.
  - apply andb_true_iff in H. destruct H as [Ha _].
    apply negb_true_iff in Ha. intros Hin.
    assert (existsb (String.eqb a) l = true); [|congruence].
    apply existsb_exists. exists a. split; [assumption | apply String.eqb_refl].
  - apply IH. apply andb_true_iff in H. tauto.
Qed.

Lemma dict_set_new (k : string) (v : cell) (d : Dash.dict) :
  ~ In k (map fst d) -> Dash.dict_set k v d = d ++ [(k, v)].
Proof.
  induction d as [|[k' v'] d IH]; simpl; intros H; [reflexivity|].
  destruct (String.eqb_spec k' k) as [->|Hne]; [tauto|].
  rewrite IH; tauto.
Qed.

(** A dict built from pairs with distinct keys holds the pairs, in order. *)
Lemma dict_of_distinct (pairs : list (string * cell)) :
  NoDup (map fst pairs) -> Dash.dict_of pairs = pairs.
Proof.
  unfold Dash.dict_of.
  induction pairs as [|p l IH] using rev_ind; intros H; [reflexivity|].
  rewrite map_app in H. apply NoDup_remove_1 in H as Hl. rewrite app_nil_r in Hl.
  rewrite fold_left_app. simpl. rewrite (IH Hl).
  destruct p as [k v]. simpl. apply dict_set_new.
  apply NoDup_remove_2 in H. now rewrite app_nil_r in H.
Qed.

Lemma combine_fst_snd {A B} (l : list A) (l' : list B) :
  List.length l' = List.length l ->
  map fst (combine l l') = l /\ map snd (combine l l') = l'.
Proof.
  revert l'. induction l as [|a l IH]; intros [|b l']; simpl; try discriminate.
  - split; reflexivity.
  - intros H. destruct (IH l') as [H1 H2]; [lia|]. now rewrite H1, H2.
Qed.

Lemma dict_get_combine (name : string) (cols : list string) (r : row) :
  Dash.dict_get name (combine cols r) = field cols name r.
Proof.
  unfold field. revert r. induction cols as [|c cols IH]; intros r; simpl.
  - reflexivity.
  - destruct r as [|x r]; simpl.
    + destruct (String.eqb c name); [reflexivity|].
      destruct (get_loc name cols); reflexivity.
    + destruct (String.eqb c name); [reflexivity|].
      rewrite IH. destruct (get_loc name cols); reflexivity.
Qed.

(** X14.  The records handed to the table are the frame, cell for cell: for
    a well-formed frame there is one record per row, its keys are the column
    labels in order, looking a label up gives the cell of that column, and
    the values of the records, read in order, are the rows again. *)
Theorem build_measures_table_records (measures : DataFrame) :
  wf_frame measures = true ->
  Forall2 (fun record r =>
             map fst record = columns measures
             /\ forall name,
                  Dash.dict_get name record = field (columns measures) name r)
          (Dash.dt_data (_build_measures_table measures)) (data measures)
  /\ map (map snd) (Dash.dt_data (_build_measures_table measures))
     = data measures.
Proof.
  unfold wf_frame. rewrite andb_true_iff. intros [Hd Hrows].
  apply distinct_NoDup in Hd. rewrite forallb_forall in Hrows.
  cbn [_build_measures_table Dash.dt_data]. unfold to_dict_records.
  assert (Hrec : forall r, In r (data measures) ->
            Dash.dict_of (combine (columns measures) r) = combine (columns measures) r
            /\ map fst (combine (columns measures) r) = columns measures
            /\ map snd (combine (columns measures) r) = r).
  { intros r Hr. specialize (Hrows r Hr). apply Nat.eqb_eq in Hrows.
    destruct (combine_fst_snd (columns measures) r Hrows) as [H1 H2].
    split; [|split; assumption]. apply dict_of_distinct. now rewrite H1. }
  clear Hrows. split.
  - induction (data measures) as [|r rows IH]; simpl; constructor.
    + destruct (Hrec r (or_introl eq_refl)) as (-> & H1 & _).
      split; [assumption|]. intros name. apply dict_get_combine.
    + apply IH. intros r' Hr'. apply Hrec. now right.
  - rewrite map_map. rewrite <- (map_id (data measures)) at 2.
    apply map_ext_in. intros r Hr. destruct (Hrec r Hr) as (-> & _ & H2).
    exact H2.
Qed.

Lemma build_measures_table_records_witness :
  Forall2 (fun record r =>
             map fst record = columns sample_raw
             /\ forall name,
                  Dash.dict_get name record = field (columns sample_raw) name r)
          (Dash.dt_data (_build_measures_table sample_raw))
          (data sample_raw)
  /\ map (map snd) (Dash.dt_data (_build_measures_table sample_raw))
     = data sample_raw.
Proof.
  apply (build_measures_table_records sample_raw). reflexivity.
Defined.





(** ** Loading the module *)

(** X11.  Loading the module.  When [pd.read_feather] raises, a
    [FileNotFoundError] for instance, the exception leaves the module and
    nothing is allocated.  When it returns a raw table, the load succeeds on
    any store: exactly three objects are allocated, the table, its cube rows
    and the aggregate; [tmeasures] names the first and [cube_measures] the
    last, which is what [get_cube_measures] returns for the table and is a
    summary table. *)
Theorem init_run (read_feather : result DataFrame) (st : Store.store) :
  (forall e, read_feather = Raise e -> Main.init read_feather st = (Raise e, st))
  /\ (forall T,
        read_feather = Ok T ->
        raw_table T = true ->
        exists cubes out,
          get_cube_measures T = Ok out
          /\ summary_table out = true
          /\ Main.init read_feather st =
             (Ok (Main.mkGlobals (List.length st) (List.length st + 2)%nat),
              st ++ [Store.Frame T; Store.Frame cubes; Store.Frame out])).
Proof.
  split.
  - intros e ->. reflexivity.
  - intros T -> Hraw.
    destruct (get_cube_measures_summary_table T Hraw) as (out & Hout & Htbl).
    assert (Hrun := main_get_cube_measures_run (List.length st)
                      (st ++ [Store.Frame T]) T (lookup_alloc st (Store.Frame T))).
    rewrite Hout in Hrun. destruct Hrun as [cubes Hrun].
    exists cubes, out. split; [assumption|]. split; [assumption|].
    unfold Main.init, Main.load_team_measures. rewrite !bind_run.
    unfold Store.lift, Store.alloc. rewrite bind_run, Hrun.
    unfold Store.ret. rewrite length_app, <- app_assoc. cbn [List.length app].
    do 2 f_equal. f_equal. lia.
Qed.

Lemma init_run_witness :
  Main.init (Raise (FileNotFoundError "team-measures.feather")) []
  = (Raise (FileNotFoundError "team-measures.feather"), [])
  /\ exists cubes out,
       get_cube_measures sample_raw = Ok out
       /\ summary_table out = true
       /\ Main.init (Ok sample_raw) [] =
          (Ok (Main.mkGlobals 0%nat 2%nat),
           [Store.Frame sample_raw; Store.Frame cubes; Store.Frame out]).
Proof.
  split.
  - apply (proj1 (init_run (Raise (FileNotFoundError "team-measures.feather")) [])).
    reflexivity.
  - apply (proj2 (init_run (Ok sample_raw) []) sample_raw); reflexivity.
Defined.
